(** * go_cl_utils: the four command-line utilities, embedded and verified

    The repository holds four independent Go programs: [myWc] (a word, line
    and character counter), [myRotate] (a log archiver), [myXargs] (an
    argument-forwarding executor) and [myFind] (a recursive lister).

    The first part of this file models the pieces of the Go standard library
    the programs call (strings, unicode/utf8, bufio.Scanner, fmt, flag, os,
    path/filepath, os/exec).  The second part embeds each program, one module
    per program, function by function.  The third part states and proves the
    properties. *)

From Stdlib Require Import ZArith List Ascii String Bool Lia DecimalString.
From stdpp Require Import base gmap strings.

Set Default Proof Using "Type".

(** ** Go values shared by the four programs *)

(** A Go [error] is identified by its message, which is what
    [fmt.Fprintln(os.Stderr, err)] and [panic(err)] show. *)
Definition error := string.

(** The integer value of a byte of a Go string. *)
Definition byteZ (c : ascii) : Z := Z.of_N (N_of_ascii c).

(** Two's complement wrap-around of Go's fixed-width signed integers. *)
Definition wrap (bits : Z) (z : Z) : Z :=
  (z + 2 ^ (bits - 1)) mod 2 ^ bits - 2 ^ (bits - 1).

Definition int8 (z : Z) : Z := wrap 8 z.
Definition int64 (z : Z) : Z := wrap 64 z.

(** [s[n:]] on a slice: a run-time panic when [n] exceeds the length. *)
Definition slice_from {A} (n : nat) (l : list A) : option (list A) :=
  if (n <=? length l)%nat then Some (skipn n l) else None.

(** [n] copies of one byte, for building long inputs. *)
Fixpoint repeat_byte (c : ascii) (n : nat) : string :=
  match n with
  | O => EmptyString
  | S k => String c (repeat_byte c k)
  end.

(** ** Package unicode/utf8 and unicode.IsSpace *)
Module utf8.
Local Open Scope Z_scope.

Definition RuneError : Z := 0xFFFD.
Definition RuneSelf : Z := 0x80.

(** Entries of the table [first]: the low three bits are the length of
    the encoding, the high four bits index [acceptRanges]. *)
Definition xx : Z := 0xF1.
Definition as_ : Z := 0xF0.
Definition s1 : Z := 0x02.
Definition s2 : Z := 0x13.
Definition s3 : Z := 0x03.
Definition s4 : Z := 0x23.
Definition s5 : Z := 0x34.
Definition s6 : Z := 0x04.
Definition s7 : Z := 0x44.

Definition first (c : Z) : Z :=
  if c <? 0x80 then as_
  else if c <? 0xC2 then xx
  else if c <? 0xE0 then s1
  else if c =? 0xE0 then s2
  else if c <? 0xED then s3
  else if c =? 0xED then s4
  else if c <? 0xF0 then s3
  else if c =? 0xF0 then s5
  else if c <? 0xF4 then s6
  else if c =? 0xF4 then s7
  else xx.

Definition locb : Z := 0x80.
Definition hicb : Z := 0xBF.

Definition acceptRanges (i : Z) : Z * Z :=
  if i =? 0 then (locb, hicb)
  else if i =? 1 then (0xA0, hicb)
  else if i =? 2 then (locb, 0x9F)
  else if i =? 3 then (0x90, hicb)
  else if i =? 4 then (locb, 0x8F)
  else (0, 0).

Definition maskx : Z := 0x3F.
Definition mask2 : Z := 0x1F.
Definition mask3 : Z := 0x0F.
Definition mask4 : Z := 0x07.

(** [DecodeRuneInString]: the first rune of [s] and the number of bytes it
    takes.  An invalid or short encoding is [RuneError] of width 1. *)
Definition DecodeRuneInString (s : string) : Z * nat :=
  match s with
  | EmptyString => (RuneError, 0%nat)
  | String c0 t =>
    let s0 := byteZ c0 in
    let x := first s0 in
    if as_ <=? x then
      (if x =? xx then RuneError else s0, 1%nat)
    else
      let sz := Z.land x 7 in
      let '(lo, hi) := acceptRanges (Z.shiftr x 4) in
      if Z.of_nat (String.length s) <? sz then (RuneError, 1%nat)
      else
        match t with
        | EmptyString => (RuneError, 1%nat)
        | String c1 t1 =>
          let b1 := byteZ c1 in
          if (b1 <? lo) || (hi <? b1) then (RuneError, 1%nat)
          else if sz <=? 2 then
            (Z.lor (Z.shiftl (Z.land s0 mask2) 6) (Z.land b1 maskx), 2%nat)
          else
            match t1 with
            | EmptyString => (RuneError, 1%nat)
            | String c2 t2 =>
              let b2 := byteZ c2 in
              if (b2 <? locb) || (hicb <? b2) then (RuneError, 1%nat)
              else if sz <=? 3 then
                (Z.lor (Z.lor (Z.shiftl (Z.land s0 mask3) 12)
                              (Z.shiftl (Z.land b1 maskx) 6))
                       (Z.land b2 maskx), 3%nat)
              else
                match t2 with
                | EmptyString => (RuneError, 1%nat)
                | String c3 _ =>
                  let b3 := byteZ c3 in
                  if (b3 <? locb) || (hicb <? b3) then (RuneError, 1%nat)
                  else
                    (Z.lor (Z.lor (Z.lor (Z.shiftl (Z.land s0 mask4) 18)
                                         (Z.shiftl (Z.land b1 maskx) 12))
                                  (Z.shiftl (Z.land b2 maskx) 6))
                           (Z.land b3 maskx), 4%nat)
                end
            end
        end
  end.

(** The loop of [RuneCountInString]: [skip] bytes of the rune being counted
    are still to be passed over. *)
Fixpoint runeCount (skip : nat) (s : string) : nat :=
  match s with
  | EmptyString => 0%nat
  | String _ t =>
    match skip with
    | S k => runeCount k t
    | O => S (runeCount (Nat.pred (snd (DecodeRuneInString s))) t)
    end
  end.

Definition RuneCountInString (s : string) : nat := runeCount 0 s.

(** [unicode.IsSpace]: the Latin-1 spaces and the White_Space table. *)
Definition IsSpace (r : Z) : bool :=
  if r <=? 0xFF then
    (9 <=? r) && (r <=? 13) || (r =? 32) || (r =? 0x85) || (r =? 0xA0)
  else
    (r =? 0x1680) || (0x2000 <=? r) && (r <=? 0x200A) ||
    (r =? 0x2028) || (r =? 0x2029) || (r =? 0x202F) || (r =? 0x205F) ||
    (r =? 0x3000).

End utf8.

(** ** Package strings *)
Module strings.

Definition HasSuffix (s suffix : string) : bool :=
  (String.length suffix <=? String.length s)%nat &&
  String.eqb
    (substring (String.length s - String.length suffix) (String.length suffix) s)
    suffix.

(** [CutSuffix] returns [s] without the suffix and whether it was there. *)
Definition CutSuffix (s suffix : string) : string * bool :=
  if negb (HasSuffix s suffix) then (s, false)
  else (substring 0 (String.length s - String.length suffix) s, true).

(** The table [asciiSpace]: tab, newline, vertical tab, form feed, carriage
    return and space. *)
Definition asciiSpace (c : ascii) : bool :=
  let n := byteZ c in
  ((9 <=? n) && (n <=? 13) || (n =? 32))%Z.

(** The ASCII path of [Fields]: [cur] is the field being read, if any. *)
Fixpoint fieldsASCII (cur : option string) (s : string) : list string :=
  match s with
  | EmptyString =>
    match cur with Some f => [f] | None => [] end
  | String c t =>
    if asciiSpace c then
      match cur with
      | Some f => f :: fieldsASCII None t
      | None => fieldsASCII None t
      end
    else
      match cur with
      | Some f => fieldsASCII (Some (f +:+ String c EmptyString)) t
      | None => fieldsASCII (Some (String c EmptyString)) t
      end
  end.

(** [FieldsFunc] walks the runes of [s] ([for end, rune := range s]) and
    splits around the runes satisfying [f].  [skip] counts the bytes of the
    current rune still to be passed over; they join the field being read
    when the rune is part of one. *)
Fixpoint fieldsFunc (f : Z -> bool) (skip : nat) (cur : option string)
    (s : string) : list string :=
  match s with
  | EmptyString =>
    match cur with Some fld => [fld] | None => [] end
  | String c t =>
    match skip with
    | S k =>
      fieldsFunc f k
        (option_map (fun fld => fld +:+ String c EmptyString) cur) t
    | O =>
      let '(r, size) := utf8.DecodeRuneInString s in
      if f r then
        match cur with
        | Some fld => fld :: fieldsFunc f (Nat.pred size) None t
        | None => fieldsFunc f (Nat.pred size) None t
        end
      else
        match cur with
        | Some fld =>
          fieldsFunc f (Nat.pred size) (Some (fld +:+ String c EmptyString)) t
        | None =>
          fieldsFunc f (Nat.pred size) (Some (String c EmptyString)) t
        end
    end
  end.

Definition FieldsFunc (s : string) (f : Z -> bool) : list string :=
  fieldsFunc f 0 None s.

(** [setBits >= utf8.RuneSelf]: some byte of [s] is not ASCII. *)
Fixpoint hasNonASCII (s : string) : bool :=
  match s with
  | EmptyString => false
  | String c t => (utf8.RuneSelf <=? byteZ c)%Z || hasNonASCII t
  end.

(** [Fields] splits [s] around runs of white space. *)
Definition Fields (s : string) : list string :=
  if hasNonASCII s then FieldsFunc s utf8.IsSpace
  else fieldsASCII None s.

End strings.


(** ** Package bytes *)
Module bytes.

(** [IndexByte(data, c)] together with the two slices it is used for: the
    bytes before the first [c] and the bytes after it. *)
Fixpoint cutByte (c : ascii) (data : string) : option (string * string) :=
  match data with
  | EmptyString => None
  | String b t =>
    if Ascii.eqb b c then Some (EmptyString, t)
    else
      match cutByte c t with
      | Some (before, after) => Some (String b before, after)
      | None => None
      end
  end.

End bytes.

(** ** Package fmt *)
Module fmt.

(** The verb [%d] on an integer. *)
Definition d (z : Z) : string := NilZero.string_of_int (Z.to_int z).

End fmt.

(** ** Package bufio: Scanner with the default split function ScanLines *)
Module bufio.

Definition MaxScanTokenSize : nat := 64 * 1024.

Definition ErrTooLong : error := "bufio.Scanner: token too long".

Definition LF : ascii := "010"%char.
Definition CR : ascii := "013"%char.

(** [dropCR] drops a terminal carriage return from the data. *)
Fixpoint dropCR (data : string) : string :=
  match data with
  | EmptyString => EmptyString
  | String b EmptyString =>
    if Ascii.eqb b CR then EmptyString else data
  | String b t => String b (dropCR t)
  end.

(** A scanner over a reader: [unread] is the input not yet returned as
    tokens, [err] the sticky error of the scanner ([None] also stands for
    io.EOF, which [Err] reports as nil). *)
Record Scanner := mkScanner {
  unread : string;
  err : option error
}.

Definition NewScanner (input : string) : Scanner := mkScanner input None.

(** One call of [Scan] with [ScanLines].  The buffer grows up to
    [MaxScanTokenSize] bytes; a line is returned when its newline is among
    the buffered bytes, or at the end of the input when the rest fits in a
    buffer that still has room.  A buffer that is full and holds no newline
    stops the scan with [ErrTooLong]. *)
Definition Scan (s : Scanner) : option string * Scanner :=
  match err s with
  | Some _ => (None, s)
  | None =>
    match bytes.cutByte LF (unread s) with
    | Some (line, rest) =>
      if (String.length line <? MaxScanTokenSize)%nat
      then (Some (dropCR line), mkScanner rest None)
      else (None, mkScanner (unread s) (Some ErrTooLong))
    | None =>
      match unread s with
      | EmptyString => (None, s)
      | _ =>
        if (String.length (unread s) <? MaxScanTokenSize)%nat
        then (Some (dropCR (unread s)), mkScanner EmptyString None)
        else (None, mkScanner (unread s) (Some ErrTooLong))
      end
    end
  end.

(** [for scanner.Scan() { acc = body(acc, scanner.Text()) }].  Every token
    consumes at least one byte, so [fuel] above the length of the input is
    never exhausted. *)
Fixpoint scanLoop {A} (fuel : nat) (body : A -> string -> A)
    (s : Scanner) (acc : A) : A * Scanner :=
  match fuel with
  | O => (acc, s)
  | S k =>
    match Scan s with
    | (Some text, s') => scanLoop k body s' (body acc text)
    | (None, s') => (acc, s')
    end
  end.

Definition forScan {A} (body : A -> string -> A) (s : Scanner) (acc : A)
    : A * Scanner :=
  scanLoop (S (String.length (unread s))) body s acc.

End bufio.

(** ** Package strconv and package flag *)
Module flag.

(** [strconv.ParseBool]. *)
Definition ParseBool (str : string) : option bool :=
  if bool_decide (str ∈ ["1"; "t"; "T"; "TRUE"; "true"; "True"]) then Some true
  else if bool_decide (str ∈ ["0"; "f"; "F"; "FALSE"; "false"; "False"])
  then Some false
  else None.

(** A defined flag, over the variables [St] the program's flags are bound
    to: whether its value is a [boolFlag], and its [Value.Set]. *)
Record Flag (St : Type) := mkFlag {
  IsBoolFlag : bool;
  Set_ : string -> St -> St + error
}.
Arguments mkFlag {St}.
Arguments IsBoolFlag {St}.
Arguments Set_ {St}.

(** The map [formal] of a flag set. *)
Definition FlagSet (St : Type) := string -> option (Flag St).

Inductive ParseError :=
| ErrHelp
| BadSyntax (s : string)
| NotDefined (name : string)
| InvalidBoolean (value name : string) (e : error)
| NeedsArgument (name : string)
| InvalidValue (value name : string) (e : error).

(** What [parseOne] returns: a flag was seen and set, the flags are over,
    or an error. *)
Inductive Step (St : Type) :=
| Seen (st : St) (args : list string)
| Over (st : St) (args : list string)
| Failed (e : ParseError).
Arguments Seen {St}.
Arguments Over {St}.
Arguments Failed {St}.

Definition dash : ascii := "-"%char.
Definition equals : ascii := "="%char.

Definition parseOne {St} (formal : FlagSet St) (st : St) (args : list string)
    : Step St :=
  match args with
  | [] => Over st []
  | s :: rest =>
    match s with
    | String c0 (String c1 t) =>
      if negb (Ascii.eqb c0 dash) then Over st args
      else if Ascii.eqb c1 dash && String.eqb t EmptyString then Over st rest
      else
        let name := if Ascii.eqb c1 dash then t else String c1 t in
        match name with
        | EmptyString => Failed (BadSyntax s)
        | String n0 nt =>
          if Ascii.eqb n0 dash || Ascii.eqb n0 equals
          then Failed (BadSyntax s)
          else
            let '(name, hasValue, value) :=
              match bytes.cutByte equals nt with
              | Some (before, after) => (String n0 before, true, after)
              | None => (name, false, EmptyString)
              end in
            match formal name with
            | None =>
              if String.eqb name "help" || String.eqb name "h"
              then Failed ErrHelp
              else Failed (NotDefined name)
            | Some fl =>
              if IsBoolFlag fl then
                match Set_ fl (if hasValue then value else "true") st with
                | inl st' => Seen st' rest
                | inr e => Failed (InvalidBoolean value name e)
                end
              else
                match hasValue, rest with
                | false, [] => Failed (NeedsArgument name)
                | false, v :: rest' =>
                  match Set_ fl v st with
                  | inl st' => Seen st' rest'
                  | inr e => Failed (InvalidValue v name e)
                  end
                | true, _ =>
                  match Set_ fl value st with
                  | inl st' => Seen st' rest
                  | inr e => Failed (InvalidValue value name e)
                  end
                end
            end
        end
    | _ => Over st args
    end
  end.

(** The loop of [FlagSet.Parse]; each flag seen consumes an argument. *)
Fixpoint parseLoop {St} (fuel : nat) (formal : FlagSet St) (st : St)
    (args : list string) : Step St :=
  match fuel with
  | O => Over st args
  | S k =>
    match parseOne formal st args with
    | Seen st' args' => parseLoop k formal st' args'
    | r => r
    end
  end.

(** The result of [flag.Parse()] on the command line, whose error handling
    is [ExitOnError]: the flag variables and [flag.Args()], or the exit
    status of the process (0 after [-h], 2 after a bad flag). *)
Inductive Parsed (St : Type) :=
| Flags (st : St) (args : list string)
| Exit (status : Z) (e : ParseError).
Arguments Flags {St}.
Arguments Exit {St}.

Definition Parse {St} (formal : FlagSet St) (st : St)
    (arguments : list string) : Parsed St :=
  match parseLoop (S (length arguments)) formal st arguments with
  | Seen st' args | Over st' args => Flags st' args
  | Failed ErrHelp => Exit 0 ErrHelp
  | Failed e => Exit 2 e
  end.

End flag.

(** ** Package os and io/fs: file information and the file system *)
Module os.
Local Open Scope Z_scope.

(** What [fs.FileInfo] gives the programs: the base name, the mode bits
    (a uint32) and the modification time in Unix seconds (an int64). *)
Record FileInfo := mkFileInfo {
  Name : string;
  Mode : Z;
  ModTimeUnix : Z
}.

Definition ModeDir : Z := Z.shiftl 1 31.
Definition ModeSymlink : Z := Z.shiftl 1 27.
Definition ModeDevice : Z := Z.shiftl 1 26.
Definition ModeNamedPipe : Z := Z.shiftl 1 25.
Definition ModeSocket : Z := Z.shiftl 1 24.
Definition ModeCharDevice : Z := Z.shiftl 1 21.
Definition ModeIrregular : Z := Z.shiftl 1 19.
Definition ModeType : Z :=
  Z.lor ModeDir (Z.lor ModeSymlink (Z.lor ModeNamedPipe
    (Z.lor ModeSocket (Z.lor ModeDevice (Z.lor ModeCharDevice ModeIrregular))))).
Definition ModePerm : Z := 0x1FF. (* 0777 *)

Definition IsDir (info : FileInfo) : bool :=
  negb (Z.land (Mode info) ModeDir =? 0).

Definition IsRegular (mode : Z) : bool :=
  Z.land mode ModeType =? 0.

(** A file as the programs see it through a path: its information, its
    bytes, and the error [os.Open] returns for the current user, if any. *)
Record File := mkFile {
  info : FileInfo;
  content : string;
  openErr : option error
}.

Definition ENOENT : error := "no such file or directory".

(** [&PathError{Op, Path, Err}.Error()]. *)
Definition PathError (op path : string) (e : error) : error :=
  op +:+ " " +:+ path +:+ ": " +:+ e.

(** [os.Stat] over the paths that name a file.  The empty path names
    none: stat(2) answers ENOENT for it. *)
Definition Stat (fs : gmap string File) (path : string) : FileInfo + error :=
  if String.eqb path EmptyString then inr (PathError "stat" path ENOENT)
  else
    match fs !! path with
    | Some f => inl (info f)
    | None => inr (PathError "stat" path ENOENT)
    end.

(** [os.Open] followed by reading the whole file. *)
Definition Open (fs : gmap string File) (path : string) : string + error :=
  if String.eqb path EmptyString then inr (PathError "open" path ENOENT)
  else
    match fs !! path with
    | Some f =>
      match openErr f with
      | Some e => inr (PathError "open" path e)
      | None => inl (content f)
      end
    | None => inr (PathError "open" path ENOENT)
    end.

End os.

(** ** What a run of a program leaves behind *)

(** How [main] ends: it returns, it panics with a value, or the process
    exits with a status ([os.Exit]). *)
Inductive Ending :=
| Returned
| Panicked (v : string)
| Exited (status : Z).

Definition newline : string := String bufio.LF EmptyString.
Definition tab : string := String "009"%char EmptyString.

(** * Program myWc *)
Module myWc.
Local Open Scope Z_scope.

(** The three flag variables [lMode], [wMode], [mMode]. *)
Record Modes := mkModes {
  lMode : bool;
  wMode : bool;
  mMode : bool
}.

Definition boolVar (assign : bool -> Modes -> Modes) : flag.Flag Modes :=
  flag.mkFlag true (fun value st =>
    match flag.ParseBool value with
    | Some b => inl (assign b st)
    | None => inr "parse error"
    end).

Definition formal : flag.FlagSet Modes := fun name =>
  if String.eqb name "l"
  then Some (boolVar (fun b st => mkModes b (wMode st) (mMode st)))
  else if String.eqb name "w"
  then Some (boolVar (fun b st => mkModes (lMode st) b (mMode st)))
  else if String.eqb name "m"
  then Some (boolVar (fun b st => mkModes (lMode st) (wMode st) b))
  else None.

(** [validateFlags] counts the flags that are set ([count], [mode] are
    int8) and determines the mode: 3 lines, 2 words, 1 characters. *)
Definition validateFlags (lMode wMode mMode : bool) : Z * option error :=
  let count := 0 in
  let mode := 0 in
  let '(count, mode) := if lMode then (int8 (count + 1), 3) else (count, mode) in
  let '(count, mode) := if wMode then (int8 (count + 1), 2) else (count, mode) in
  let '(count, mode) := if mMode then (int8 (count + 1), 1) else (count, mode) in
  if 1 <? count
  then (0, Some "Only one of -l, -w, -m can be specified")
  else if count =? 0 then (2, None)
  else (mode, None).

(** The map [files] shared by the tasks, and what was written to stderr. *)
Record State := mkState {
  files : gmap string Z;
  stderr : list string
}.

(** [handleFileErr] prints the error and deletes the path from the map. *)
Definition handleFileErr (path : string) (st : State) (err : error) : State :=
  mkState (delete path (files st)) (stderr st ++ [err +:+ newline]).

(** The body of the scanning loop: [res] is an int, 64 bits wide. *)
Definition count (mode : Z) (res : Z) (text : string) : Z :=
  if mode =? 3 then int64 (res + 1)
  else if mode =? 2 then
    int64 (res + Z.of_nat (length (strings.Fields text)))
  else if mode =? 1 then
    int64 (res + int64 (Z.of_nat (utf8.RuneCountInString text) + 1))
  else res.

(** [processFile] reads the file at [path] and counts by [mode]. *)
Definition processFile (fs : gmap string os.File) (path : string) (mode : Z)
    (st : State) : State :=
  match os.Stat fs path with
  | inr err => handleFileErr path st err
  | inl info =>
    if negb (os.IsRegular (os.Mode info)) then
      mkState (delete path (files st))
              (stderr st ++ [path +:+ " is not a file" +:+ newline])
    else
      match os.Open fs path with
      | inr err => handleFileErr path st err
      | inl data =>
        let '(res, _) :=
          bufio.forScan (count mode) (bufio.NewScanner data) 0 in
        mkState (<[path := res]> (files st)) (stderr st)
      end
  end.

(** The run of [main]: how it ended, the lines printed and the
    diagnostics. *)
Record Run := mkRun {
  ending : Ending;
  stdout : list string;
  diagnostics : list string
}.

(** [main].  The tasks are run one after the other, in the order in which
    the map hands out its keys; Go fixes neither order. *)
Definition main (fs : gmap string os.File) (Args : list string) : Run :=
  match slice_from 1 Args with
  | None => mkRun (Panicked "slice bounds out of range") [] []
  | Some arguments =>
    match flag.Parse formal (mkModes false false false) arguments with
    | flag.Exit status _ => mkRun (Exited status) [] []
    | flag.Flags fl args =>
      match validateFlags (lMode fl) (wMode fl) (mMode fl) with
      | (_, Some err) => mkRun (Panicked err) [] []
      | (mode, None) =>
        if (length args <? 1)%nat then mkRun (Panicked "No files provided") [] []
        else
          let files0 : gmap string Z :=
            foldl (fun m el => <[el := 0]> m) ∅ args in
          let st :=
            foldl (fun st path => processFile fs path mode st)
                  (mkState files0 []) (map fst (map_to_list files0)) in
          mkRun Returned
            (map (fun '(key, val) => fmt.d val +:+ tab +:+ key +:+ newline)
                 (map_to_list (files st)))
            (stderr st)
      end
    end
  end.

End myWc.

(** * Program myXargs *)
Module myXargs.

(** The run of [main]: the command started, if any, with its arguments;
    what was printed; how [main] ended. *)
Record Run := mkRun {
  executed : option (string * list string);
  stdout : string;
  ending : Ending
}.

(** [main].  [run name args] is what [exec.Command(name, args...)
    .CombinedOutput()] gives: the combined output and the error. *)
Definition main (run : string -> list string -> string * option error)
    (Args : list string) (stdin : string) : Run :=
  match slice_from 1 Args with
  | None => mkRun None EmptyString (Panicked "slice bounds out of range")
  | Some arr =>
    let '(arr, scanner) :=
      bufio.forScan (fun arr text => arr ++ [text])
                    (bufio.NewScanner stdin) arr in
    match bufio.err scanner with
    | Some err => mkRun None EmptyString (Panicked err)
    | None =>
      match arr with
      | [] =>
        mkRun None EmptyString
              (Panicked "runtime error: index out of range [0] with length 0")
      | name :: args =>
        match run name args with
        | (_, Some err) => mkRun (Some (name, args)) EmptyString (Panicked err)
        | (out, None) => mkRun (Some (name, args)) out Returned
        end
      end
    end
  end.

End myXargs.

(** ** Package path/filepath over a tree of files *)
Module filepath.

Definition slash : ascii := "/"%char.

(** The tree below the working directory, as lstat, readdir and readlink
    show it.  A leaf is anything that is not a directory; it carries the
    link text when it is a symbolic link.  A directory carries the error of
    reading its entries, if any, and its entries sorted by name. *)
#[local] Set Warnings "-register-all".
Inductive Node :=
| Leaf (info : os.FileInfo) (link : option string)
| Dir (info : os.FileInfo) (readErr : option error)
      (entries : list (string * Node)).

Definition infoOf (n : Node) : os.FileInfo :=
  match n with
  | Leaf info _ => info
  | Dir info _ _ => info
  end.

(** The components of a path: the runs of bytes between separators. *)
Fixpoint components (cur : string) (path : string) : list string :=
  match path with
  | EmptyString => [cur]
  | String c t =>
    if Ascii.eqb c slash then cur :: components EmptyString t
    else components (cur +:+ String c EmptyString) t
  end.

Fixpoint joinWith (sep : string) (l : list string) : string :=
  match l with
  | [] => EmptyString
  | [x] => x
  | x :: l' => x +:+ sep +:+ joinWith sep l'
  end.

Definition isAbs (path : string) : bool :=
  match path with
  | String c _ => Ascii.eqb c slash
  | EmptyString => false
  end.

(** The loop of [Clean]: empty and "." components go, ".." takes back the
    component before it; a ".." with nothing to take back stays in a
    relative path and goes in a rooted one. *)
Fixpoint cleanOnto (rooted : bool) (out : list string) (comps : list string)
    : list string :=
  match comps with
  | [] => out
  | c :: rest =>
    if String.eqb c EmptyString || String.eqb c "." then cleanOnto rooted out rest
    else if String.eqb c ".." then
      match rev out with
      | [] => cleanOnto rooted (if rooted then [] else [".."]) rest
      | last :: before =>
        if String.eqb last ".." then cleanOnto rooted (out ++ [".."]) rest
        else cleanOnto rooted (rev before) rest
      end
    else cleanOnto rooted (out ++ [c]) rest
  end.

Definition Clean (path : string) : string :=
  let body :=
    joinWith "/" (cleanOnto (isAbs path) [] (components EmptyString path)) in
  if isAbs path then "/" +:+ body
  else if String.eqb body EmptyString then "." else body.

(** [Join] of a directory and a name. *)
Definition Join (dir name : string) : string :=
  Clean (dir +:+ "/" +:+ name).

Definition find (name : string) (entries : list (string * Node))
    : option Node :=
  match List.find (fun e => String.eqb (fst e) name) entries with
  | Some e => Some (snd e)
  | None => None
  end.

(** The node a list of plain components leads to, links not followed. *)
Fixpoint nodeAt (n : Node) (comps : list string) : option Node :=
  match comps with
  | [] => Some n
  | c :: rest =>
    match n with
    | Dir _ _ entries =>
      match find c entries with
      | Some child => nodeAt child rest
      | None => None
      end
    | Leaf _ _ => None
    end
  end.

(** [walkSymlinks]: [dest] is the resolved prefix, [comps] what is left of
    the path, [budget] the number of links that may still be walked (255 in
    all).  A link replaces the component it stands for by its text.  Paths
    that leave the working directory (absolute link texts, ".." above it)
    are outside the tree and do not resolve. *)
Fixpoint walkSymlinks (budget : nat) (cwd : Node) (dest comps : list string)
    {struct budget} : list string + error :=
  (fix along (dest comps : list string) {struct comps} : list string + error :=
     match comps with
     | [] => inl dest
     | c :: rest =>
       if String.eqb c EmptyString || String.eqb c "." then along dest rest
       else if String.eqb c ".." then
         match rev dest with
         | [] => inr (os.PathError "lstat" ".." os.ENOENT)
         | _ :: before => along (rev before) rest
         end
       else
         match nodeAt cwd (dest ++ [c]) with
         | None =>
           inr (os.PathError "lstat" (joinWith "/" (dest ++ [c])) os.ENOENT)
         | Some (Leaf _ (Some link)) =>
           match budget with
           | O => inr "EvalSymlinks: too many links"
           | S k =>
             if isAbs link then inr (os.PathError "lstat" link os.ENOENT)
             else walkSymlinks k cwd dest (components EmptyString link ++ rest)
           end
         | Some (Leaf _ None) =>
           match rest with
           | [] => inl (dest ++ [c])
           | _ => inr "not a directory"
           end
         | Some (Dir _ _ _) => along (dest ++ [c]) rest
         end
     end) dest comps.

Definition EvalSymlinks (cwd : Node) (path : string) : string + error :=
  if isAbs path then inr (os.PathError "lstat" path os.ENOENT)
  else
    match walkSymlinks 255 cwd [] (components EmptyString path) with
    | inl dest => inl (Clean (joinWith "/" dest))
    | inr e => inr e
    end.

(** [os.Stat]: the information of the file the path resolves to. *)
Definition Stat (cwd : Node) (path : string) : os.FileInfo + error :=
  if String.eqb path EmptyString
  then inr (os.PathError "stat" path os.ENOENT)
  else if isAbs path then inr (os.PathError "stat" path os.ENOENT)
  else
    match walkSymlinks 255 cwd [] (components EmptyString path) with
    | inl dest =>
      match nodeAt cwd dest with
      | Some n => inl (infoOf n)
      | None => inr (os.PathError "stat" path os.ENOENT)
      end
    | inr e => inr e
    end.

(** [os.Lstat]: as [Stat], but a link in the last component is not
    followed. *)
Definition Lstat (cwd : Node) (path : string) : Node + error :=
  if String.eqb path EmptyString
  then inr (os.PathError "lstat" path os.ENOENT)
  else if isAbs path then inr (os.PathError "lstat" path os.ENOENT)
  else
    match rev (cleanOnto false [] (components EmptyString path)) with
    | [] => inl cwd
    | last :: before =>
      match walkSymlinks 255 cwd [] (rev before) with
      | inl dest =>
        match nodeAt cwd (dest ++ [last]) with
        | Some n => inl n
        | None => inr (os.PathError "lstat" path os.ENOENT)
        end
      | inr e => inr e
      end
    end.

(** [walk]: the function is called on the node, then on the entries of a
    directory that could be read, in order.  [fn] gets the path, the
    information (nil when lstat failed) and the error of reading the
    directory; the functions of this repository return nil, so the walk
    never stops early. *)
Fixpoint walk {A} (fn : string -> option os.FileInfo -> option error -> A -> A)
    (path : string) (n : Node) (acc : A) : A :=
  match n with
  | Leaf info _ => fn path (Some info) None acc
  | Dir info readErr entries =>
    let acc := fn path (Some info) readErr acc in
    match readErr with
    | Some _ => acc
    | None =>
      (fix walkEntries (es : list (string * Node)) (acc : A) : A :=
         match es with
         | [] => acc
         | (name, child) :: es' =>
           walkEntries es' (walk fn (Join path name) child acc)
         end) entries acc
    end
  end.

(** [Walk]: lstat of the root, then [walk]. *)
Definition Walk {A} (cwd : Node)
    (fn : string -> option os.FileInfo -> option error -> A -> A)
    (root : string) (acc : A) : A :=
  match Lstat cwd root with
  | inl n => walk fn root n acc
  | inr e => fn root None (Some e) acc
  end.

End filepath.

(** * Program myFind *)
Module myFind.
Local Open Scope Z_scope.

(** The flag variables: [slMode], [fMode], [dirMode] and the value [exts]
    of type [extentions]. *)
Record Options := mkOptions {
  slMode : bool;
  fMode : bool;
  dirMode : bool;
  exts : list string
}.

Definition isAlnum (c : ascii) : bool :=
  let n := byteZ c in
  (48 <=? n) && (n <=? 57) || (65 <=? n) && (n <=? 90) ||
  (97 <=? n) && (n <=? 122).

Fixpoint allAlnum (s : string) : bool :=
  match s with
  | EmptyString => true
  | String c t => isAlnum c && allAlnum t
  end.

(** [validExt]: the expression [^[a-zA-Z0-9]+$] matches. *)
Definition validExt (val : string) : bool :=
  negb (String.eqb val EmptyString) && allAlnum val.

(** The method [Set] of [extentions]. *)
Definition Set_ (val : string) (e : list string) : list string + error :=
  if negb (validExt val) then inr "Invalid extension"
  else inl (e ++ ["." +:+ val]).

Definition boolVar (assign : bool -> Options -> Options)
    : flag.Flag Options :=
  flag.mkFlag true (fun value st =>
    match flag.ParseBool value with
    | Some b => inl (assign b st)
    | None => inr "parse error"
    end).

Definition formal : flag.FlagSet Options := fun name =>
  if String.eqb name "sl" then
    Some (boolVar (fun b o => mkOptions b (fMode o) (dirMode o) (exts o)))
  else if String.eqb name "f" then
    Some (boolVar (fun b o => mkOptions (slMode o) b (dirMode o) (exts o)))
  else if String.eqb name "d" then
    Some (boolVar (fun b o => mkOptions (slMode o) (fMode o) b (exts o)))
  else if String.eqb name "ext" then
    Some (flag.mkFlag false (fun value o =>
      match Set_ value (exts o) with
      | inl e => inl (mkOptions (slMode o) (fMode o) (dirMode o) e)
      | inr err => inr err
      end))
  else None.

(** What the walk has written so far, and the panic that stopped it. *)
Record State := mkState {
  stdout : list string;
  stderr : list string;
  panicked : option string
}.

Definition fmt_Println (line : string) (st : State) : State :=
  mkState (stdout st ++ [line +:+ newline]) (stderr st) (panicked st).

(** [processExt] prints the path for each extension it ends with. *)
Fixpoint processExt (path : string) (exts : list string) (st : State)
    : State :=
  match exts with
  | [] => st
  | ext :: rest =>
    processExt path rest
      (if strings.HasSuffix path ext then fmt_Println path st else st)
  end.

(** [printEntity] prints the entity according to the options. *)
Definition printEntity (cwd : filepath.Node) (path : string)
    (info : os.FileInfo) (dirMode fMode slMode : bool) (exts : list string)
    (st : State) : State :=
  if os.IsDir info && dirMode then fmt_Println path st
  else if os.IsRegular (os.Mode info) && fMode then
    if (0 <? length exts)%nat then processExt path exts st
    else fmt_Println path st
  else if negb (Z.land (os.Mode info) os.ModeSymlink =? 0) && slMode then
    let origFile :=
      match filepath.EvalSymlinks cwd (os.Name info) with
      | inl resolved => resolved
      | inr _ => "[broken]"
      end in
    mkState (stdout st ++ [path +:+ " -> " +:+ origFile +:+ newline])
            (stderr st) (panicked st)
  else st.

(** The function literal handed to [filepath.Walk]. *)
Definition walkFn (cwd : filepath.Node) (o : Options) (path : string)
    (info : option os.FileInfo) (err : option error) (st : State) : State :=
  match info with
  | None =>
    mkState (stdout st) (stderr st)
      (Some "runtime error: invalid memory address or nil pointer dereference")
  | Some info =>
    if negb (Z.land (Z.land (os.Mode info) os.ModePerm) 0x100 =? 0)
    then printEntity cwd path info (dirMode o) (fMode o) (slMode o) (exts o) st
    else
      mkState (stdout st)
              (stderr st ++ [path +:+ ": Permission denied" +:+ newline])
              (panicked st)
  end.

Record Run := mkRun {
  ending : Ending;
  printed : list string;
  diagnostics : list string
}.

(** [main]. *)
Definition main (cwd : filepath.Node) (Args : list string) : Run :=
  match slice_from 1 Args with
  | None => mkRun (Panicked "slice bounds out of range") [] []
  | Some arguments =>
    match flag.Parse formal (mkOptions false false false []) arguments with
    | flag.Exit status _ => mkRun (Exited status) [] []
    | flag.Flags o args =>
      if negb (fMode o) && (0 <? length (exts o))%nat
      then mkRun (Panicked "Need -f to specify extensions") [] []
      else
        let o :=
          if negb (slMode o) && negb (fMode o) && negb (dirMode o)
          then mkOptions true true true (exts o) else o in
        match args with
        | [root] =>
          match filepath.Stat cwd root with
          | inr err => mkRun (Panicked err) [] []
          | inl rootInfo =>
            if negb (os.IsDir rootInfo)
            then mkRun (Panicked (root +:+ " is not a directory")) [] []
            else
              let st :=
                filepath.Walk cwd (walkFn cwd o) root (mkState [] [] None) in
              mkRun (match panicked st with
                     | Some v => Panicked v
                     | None => Returned
                     end) (stdout st) (stderr st)
          end
        | _ => mkRun (Panicked "One directory for searching must be provided") [] []
        end
    end
  end.

End myFind.

(** * Program myRotate *)
Module myRotate.
Local Open Scope Z_scope.

(** Where writing the archive of a source file goes wrong, when it does:
    in [tar.FileInfoHeader], in [WriteHeader], in [io.Copy], or only when
    the tar and gzip writers are closed. *)
Inductive Stage := AtFileInfoHeader | AtWriteHeader | AtCopy | AtClose.

Definition sameStage (a b : Stage) : bool :=
  match a, b with
  | AtFileInfoHeader, AtFileInfoHeader
  | AtWriteHeader, AtWriteHeader
  | AtCopy, AtCopy
  | AtClose, AtClose => true
  | _, _ => false
  end.

(** The world the archiver runs in: the files by path (relative to the
    working directory), the clock, the error [os.Create] meets for a name,
    the stage at which archiving a source fails, and the two output
    streams. *)
Record World := mkWorld {
  fs : gmap string os.File;
  clock : Z;
  createErr : string -> option error;
  fault : string -> option (Stage * error);
  stdout : list string;
  stderr : list string
}.

Definition setFs (w : World) (fs' : gmap string os.File) : World :=
  mkWorld fs' (clock w) (createErr w) (fault w) (stdout w) (stderr w).

(** [fmt.Println] and [fmt.Print] to stdout, [fmt.Fprintln(os.Stderr, ..)]. *)
Definition fmt_Print (text : string) (w : World) : World :=
  mkWorld (fs w) (clock w) (createErr w) (fault w) (stdout w ++ [text])
          (stderr w).

Definition fmt_Println (line : string) (w : World) : World :=
  fmt_Print (line +:+ newline) w.

Definition fmt_Fprintln (line : string) (w : World) : World :=
  mkWorld (fs w) (clock w) (createErr w) (fault w) (stdout w)
          (stderr w ++ [line +:+ newline]).

(** [os.Create]: the file is made, or emptied when it is there. *)
Definition Create (name : string) (w : World) : World + error :=
  match createErr w name with
  | Some e => inr (os.PathError "open" name e)
  | None =>
    match fs w !! name with
    | Some f =>
      if os.IsDir (os.info f)
      then inr (os.PathError "open" name "is a directory")
      else
        inl (setFs w (<[name :=
               os.mkFile (os.mkFileInfo (os.Name (os.info f))
                                        (os.Mode (os.info f)) (clock w))
                         EmptyString (os.openErr f)]> (fs w)))
    | None =>
      inl (setFs w (<[name :=
             os.mkFile (os.mkFileInfo name 0x1A4 (clock w)) EmptyString None]>
             (fs w)))
    end
  end.

(** An operand that starts with a dash is taken for options by rm and mv. *)
Definition isOption (arg : string) : bool :=
  match arg with
  | String c (String _ _) => Ascii.eqb c flag.dash
  | _ => false
  end.

Definition exitStatus1 : error := "exit status 1".

(** [exec.Command("rm", name).CombinedOutput()]: the file is removed, or
    rm fails and nothing is removed. *)
Definition rm (name : string) (w : World) : (string * option error) * World :=
  if isOption name then ((EmptyString, Some exitStatus1), w)
  else
    match fs w !! name with
    | Some f =>
      if os.IsDir (os.info f) then ((EmptyString, Some exitStatus1), w)
      else ((EmptyString, None), setFs w (delete name (fs w)))
    | None => ((EmptyString, Some exitStatus1), w)
    end.

(** [exec.Command("mv", name, dest).CombinedOutput()]: the file goes into
    the directory [dest], or takes the name [dest] when there is no such
    directory. *)
Definition mv (name dest : string) (w : World)
    : (string * option error) * World :=
  if isOption name || isOption dest then ((EmptyString, Some exitStatus1), w)
  else
    match fs w !! name with
    | Some f =>
      let target :=
        match os.Stat (fs w) dest with
        | inl i => if os.IsDir i then dest +:+ "/" +:+ name else dest
        | inr _ => dest
        end in
      ((EmptyString, None), setFs w (<[target := f]> (delete name (fs w))))
    | None => ((EmptyString, Some exitStatus1), w)
    end.

(** [getArchiveName] generates the name of the archive. *)
Definition getArchiveName (info : os.FileInfo) (w : World)
    : (string * bool) * World :=
  let stamp := os.ModTimeUnix info in
  let '(name, found) := strings.CutSuffix (os.Name info) ".log" in
  if negb found
  then ((EmptyString, false), fmt_Fprintln "Wrong file format, only .log accepted" w)
  else ((name +:+ "_" +:+ fmt.d stamp +:+ ".tar.gz", true), w).

(** [moveArchive] moves the archive to the destination directory. *)
Definition moveArchive (name dest : string) (w : World) : World :=
  match mv name dest w with
  | ((_, Some err), w) => fmt_Fprintln err w
  | ((out, None), w) => fmt_Print out w
  end.

(** [removeArchive] removes the archive. *)
Definition removeArchive (name : string) (w : World) : World :=
  match rm name w with
  | ((_, Some err), w) => fmt_Fprintln err w
  | ((out, None), w) => fmt_Print out w
  end.

Definition failsAt (w : World) (path : string) (stage : Stage)
    : option error :=
  match fault w path with
  | Some (s, e) => if sameStage s stage then Some e else None
  | None => None
  end.

(** [fillArchive] writes the archive.  The writers are closed by deferred
    calls whose errors are dropped, so a failure at [AtClose] does not show
    in the result. *)
Definition fillArchive (path : string) (info : os.FileInfo) (w : World)
    : option error * World :=
  match os.Open (fs w) path with
  | inr err => (Some err, w)
  | inl _ =>
    match failsAt w path AtFileInfoHeader with
    | Some err => (Some err, w)
    | None =>
      match failsAt w path AtWriteHeader with
      | Some err => (Some err, w)
      | None =>
        match failsAt w path AtCopy with
        | Some err => (Some err, w)
        | None => (None, fmt_Println ("ARCHIVED: " +:+ path) w)
        end
      end
    end
  end.

(** The function literal run for each file, [dest] being the flag value. *)
Definition archive (dest : string) (path : string) (w : World) : World :=
  match os.Stat (fs w) path with
  | inr err => fmt_Fprintln err w
  | inl info =>
    match getArchiveName info w with
    | ((_, false), w) => w
    | ((name, true), w) =>
      match Create name w with
      | inr err => fmt_Fprintln err w
      | inl w =>
        let w := fmt_Println ("CREATED: " +:+ name) w in
        match fillArchive path info w with
        | (Some err, w) => removeArchive name (fmt_Fprintln err w)
        | (None, w) =>
          if negb (String.eqb dest EmptyString) then moveArchive name dest w
          else w
        end
      end
    end
  end.

Definition formal : flag.FlagSet string := fun name =>
  if String.eqb name "a" then Some (flag.mkFlag false (fun value _ => inl value))
  else None.

(** What [main] does before any file is archived: it stops, or it goes on
    with the destination and the list [files]. *)
Inductive Startup :=
| Launch (dest : string) (files : list string)
| Stop (e : Ending).

Definition startup (Args : list string) (w : World) : Startup * World :=
  match slice_from 1 Args with
  | None => (Stop (Panicked "slice bounds out of range"), w)
  | Some arguments =>
    match flag.Parse formal EmptyString arguments with
    | flag.Exit status _ => (Stop (Exited status), w)
    | flag.Flags dest _ =>
      match os.Stat (fs w) dest with
      | inr err => (Stop (Panicked err), w)
      | inl destInfo =>
        if negb (os.IsDir destInfo)
        then (Stop Returned, fmt_Fprintln (dest +:+ " is not a directory") w)
        else
          match (if String.eqb dest EmptyString then slice_from 1 Args
                 else slice_from 3 Args) with
          | None => (Stop (Panicked "slice bounds out of range"), w)
          | Some files =>
            if (length files <? 1)%nat
            then (Stop (Panicked "No files provided for archiving"), w)
            else (Launch dest files, w)
          end
      end
    end
  end.

(** [main].  The tasks are run one after the other in the order of the
    list; Go runs them concurrently. *)
Definition main (Args : list string) (w : World) : Ending * World :=
  match startup Args w with
  | (Launch dest files, w) =>
    (Returned, foldl (fun w path => archive dest path w) w files)
  | (Stop e, w) => (e, w)
  end.

End myRotate.

(** * The notions the properties are stated with *)
Module Spec.

(** The lines of a text: the runs of bytes ended by a newline, and the
    bytes after the last newline when there are any. *)
Fixpoint rawLines (data : string) : list string :=
  match data with
  | EmptyString => []
  | String c t =>
    if Ascii.eqb c bufio.LF then EmptyString :: rawLines t
    else
      match rawLines t with
      | [] => [String c EmptyString]
      | l :: ls => String c l :: ls
      end
  end.

(** The lines without their end-of-line marker, which is one optional
    carriage return and the newline. *)
Definition textLines (data : string) : list string :=
  map bufio.dropCR (rawLines data).

(** A line fits the buffer of a scanner together with its newline. *)
Definition fits (line : string) : Prop :=
  (String.length line < bufio.MaxScanTokenSize)%nat.

(** The three modes of the counter, and the numbers [validateFlags] and
    [processFile] use for them. *)
Inductive Counting := Lines | Words | Characters.

Definition code (c : Counting) : Z :=
  match c with
  | Lines => 3
  | Words => 2
  | Characters => 1
  end%Z.

(** What one line adds to the count in each mode. *)
Definition perLine (c : Counting) (line : string) : Z :=
  match c with
  | Lines => 1
  | Words => Z.of_nat (length (strings.Fields line))
  | Characters => Z.of_nat (utf8.RuneCountInString line) + 1
  end%Z.

(** The count of a text: the sum over its lines. *)
Definition total (c : Counting) (data : string) : Z :=
  foldr (fun line acc => perLine c line + acc)%Z 0%Z (textLines data).

(** The flag that asks for a mode. *)
Definition flagOf (c : Counting) (l w m : bool) : bool :=
  match c with
  | Lines => l
  | Words => w
  | Characters => m
  end.

(** The bytes of the lines, their newlines counted in. *)
Definition weight (lines : list string) : Z :=
  foldr (fun line acc => Z.of_nat (String.length line) + 1 + acc)%Z 0%Z lines.

(** How many of the three flags are given. *)
Definition given (l w m : bool) : nat :=
  length (filter (fun b : bool => b) [l; w; m]).

(** The entries a walk visits, in order: the path, the information and the
    error of reading the directory. *)
Fixpoint visits (path : string) (n : filepath.Node)
    : list (string * os.FileInfo * option error) :=
  match n with
  | filepath.Leaf info _ => [(path, info, None)]
  | filepath.Dir info readErr entries =>
    (path, info, readErr) ::
    match readErr with
    | Some _ => []
    | None =>
      (fix below (es : list (string * filepath.Node)) :=
         match es with
         | [] => []
         | (name, child) :: es' =>
           visits (filepath.Join path name) child ++ below es'
         end) entries
    end
  end.



(** What a scan of lines gives a loop body: the lines up to the first that
    does not fit, and the error of the scanner. *)
Fixpoint scanned {A} (body : A -> string -> A) (lines : list string) (acc : A)
    : A * option error :=
  match lines with
  | [] => (acc, None)
  | l :: ls =>
    if (String.length l <? bufio.MaxScanTokenSize)%nat
    then scanned body ls (body acc (bufio.dropCR l))
    else (acc, Some bufio.ErrTooLong)
  end.

(** A path [processFile] can count: it names a regular file that opens. *)
Definition readable (fs : gmap string os.File) (path : string) : bool :=
  match os.Stat fs path with
  | inl info =>
    os.IsRegular (os.Mode info) &&
    match os.Open fs path with inl _ => true | inr _ => false end
  | inr _ => false
  end.

(** The number of newline bytes of a text. *)
Fixpoint newlines (data : string) : nat :=
  match data with
  | EmptyString => O
  | String c t => ((if Ascii.eqb c bufio.LF then 1 else 0) + newlines t)%nat
  end.

(** The text has bytes after its last newline. *)
Fixpoint openEnded (data : string) : bool :=
  match data with
  | EmptyString => false
  | String c EmptyString => negb (Ascii.eqb c bufio.LF)
  | String _ t => openEnded t
  end.

(** Text of ASCII bytes with no carriage return. *)
Fixpoint plain (data : string) : bool :=
  match data with
  | EmptyString => true
  | String c t =>
    (byteZ c <? utf8.RuneSelf)%Z && negb (Ascii.eqb c bufio.CR) && plain t
  end.

(** Whether a field is being read. *)
Definition opened (cur : option string) : nat :=
  match cur with Some _ => 1%nat | None => 0%nat end.

(** An extension as the flag -ext stores it: a dot, then letters and
    digits, at least one. *)
Definition dotted (ext : string) : Prop :=
  exists val, ext = "." +:+ val /\ myFind.validExt val = true.

(** The line the lister writes to stderr for a path. *)
Definition denied (path : string) : string :=
  path +:+ ": Permission denied" +:+ newline.

End Spec.

(** * Inputs the properties are exercised on *)
Module Inputs.

(** A command runner that behaves like echo for every command. *)
Definition echo (name : string) (args : list string) : string * option error :=
  (filepath.joinWith " " args +:+ newline, None).

(** Mode bits: a directory rwxr-xr-x, a symbolic link, a file rw-r--r--. *)
Definition dirMode : Z := Z.lor os.ModeDir 0x1ED.
Definition linkMode : Z := Z.lor os.ModeSymlink 0x1FF.
Definition fileMode : Z := 0x1A4.

(** The working directory holds the directory d; d holds the file x.txt
    and the link d/link to it. *)
Definition linked : filepath.Node :=
  filepath.Dir (os.mkFileInfo "." dirMode 0) None
    [("d", filepath.Dir (os.mkFileInfo "d" dirMode 0) None
        [("link", filepath.Leaf (os.mkFileInfo "link" linkMode 0) (Some "x.txt"));
         ("x.txt", filepath.Leaf (os.mkFileInfo "x.txt" fileMode 0) None)])].

(** A file d/secret without the read bit of its owner. *)
Definition secret : os.FileInfo := os.mkFileInfo "secret" 0x80 0.

(** The directory d with the file d/secret, which its owner may not
    read, and the file d/x.txt; and the working directory that holds d. *)
Definition guardedDir : filepath.Node :=
  filepath.Dir (os.mkFileInfo "d" dirMode 0) None
    [("secret", filepath.Leaf secret None);
     ("x.txt", filepath.Leaf (os.mkFileInfo "x.txt" fileMode 0) None)].

Definition guarded : filepath.Node :=
  filepath.Dir (os.mkFileInfo "." dirMode 0) None [("d", guardedDir)].

(** The options of the lister when no flag is given. *)
Definition everything : myFind.Options := myFind.mkOptions true true true [].

(** The world of the archiver: the directory old, the logs app.log and
    ./-x.log, and the stage at which archiving a source fails. *)
Definition logs (fault : string -> option (myRotate.Stage * error))
    : myRotate.World :=
  myRotate.mkWorld
    (<["old" := os.mkFile (os.mkFileInfo "old" dirMode 3) EmptyString None]>
       (<["a.log" := os.mkFile (os.mkFileInfo "a.log" fileMode 1700000000)
                               "first" None]>
          (<["b.log" := os.mkFile (os.mkFileInfo "b.log" fileMode 1700000001)
                                  "second" None]>
             (<["./-x.log" := os.mkFile (os.mkFileInfo "-x.log" fileMode 5)
                                        "third" None]> ∅))))
    1700000100 (fun _ => None) fault [] [].

Definition noFault (path : string) : option (myRotate.Stage * error) := None.


(** A text of one line that fills the buffer of a scanner: as many bytes
    as [bufio.MaxScanTokenSize], then the newline; and the file big.txt
    that holds it. *)
Definition longLine : string :=
  repeat_byte "a"%char bufio.MaxScanTokenSize +:+ newline.

Definition big : gmap string os.File :=
  <["big.txt" := os.mkFile (os.mkFileInfo "big.txt" fileMode 0) longLine None]> ∅.

(** A small text file. *)
Definition notes : gmap string os.File :=
  <["notes.txt" :=
      os.mkFile (os.mkFileInfo "notes.txt" fileMode 0)
                ("hello world" +:+ newline +:+ "foo  bar baz" +:+ newline)
                None]> ∅.

(** The tree of the lister's example: the directory d with the file
    d/x.txt and the link d/link, whose target is missing. *)
Definition dangling : filepath.Node :=
  filepath.Dir (os.mkFileInfo "." dirMode 0) None
    [("d", filepath.Dir (os.mkFileInfo "d" dirMode 0) None
        [("link", filepath.Leaf (os.mkFileInfo "link" linkMode 0) (Some "gone"));
         ("x.txt", filepath.Leaf (os.mkFileInfo "x.txt" fileMode 0) None)])].

End Inputs.

(** * Properties *)

#[local] Opaque bufio.MaxScanTokenSize.

(** ** Strings *)
Section StringFacts.

Lemma length_append (a b : string) :
  String.length (a +:+ b) = (String.length a + String.length b)%nat.
Proof. induction a as [|c a IH]; simpl; [reflexivity | now rewrite IH]. Qed.

Lemma substring_whole (s : string) : substring 0 (String.length s) s = s.
Proof. induction s as [|c s IH]; simpl; [reflexivity | now rewrite IH]. Qed.

Lemma substring_append_left (b suffix : string) :
  substring 0 (String.length b) (b +:+ suffix) = b.
Proof.
  induction b as [|c b IH]; simpl.
  - now destruct suffix.
  - now rewrite IH.
Qed.

Lemma substring_append_right (b suffix : string) :
  substring (String.length b) (String.length suffix) (b +:+ suffix) = suffix.
Proof.
  induction b as [|c b IH]; simpl; [apply substring_whole | exact IH].
Qed.

Lemma HasSuffix_append (b suffix : string) :
  strings.HasSuffix (b +:+ suffix) suffix = true.
Proof.
  unfold strings.HasSuffix. rewrite length_append.
  replace (String.length b + String.length suffix - String.length suffix)%nat
    with (String.length b) by lia.
  rewrite substring_append_right, String.eqb_refl, andb_true_r.
  apply Nat.leb_le. lia.
Qed.

Lemma CutSuffix_append (b suffix : string) :
  strings.CutSuffix (b +:+ suffix) suffix = (b, true).
Proof.
  unfold strings.CutSuffix. rewrite HasSuffix_append. simpl.
  rewrite length_append.
  replace (String.length b + String.length suffix - String.length suffix)%nat
    with (String.length b) by lia.
  now rewrite substring_append_left.
Qed.

End StringFacts.

(** ** The scanner reads the lines of its input *)
Section Scanning.

Lemma cutByte_length c data before after :
  bytes.cutByte c data = Some (before, after) ->
  String.length data = S (String.length before + String.length after).
Proof.
  revert before. induction data as [|b t IH]; simpl; intros before H.
  - discriminate.
  - destruct (Ascii.eqb b c).
    + injection H as <- <-. reflexivity.
    + destruct (bytes.cutByte c t) as [[x y]|]; [|discriminate].
      injection H as <- <-. simpl. now rewrite (IH x eq_refl).
Qed.

Lemma rawLines_cut data :
  Spec.rawLines data =
  match bytes.cutByte bufio.LF data with
  | Some (line, rest) => line :: Spec.rawLines rest
  | None => match data with EmptyString => [] | _ => [data] end
  end.
Proof.
  induction data as [|b t IH]; simpl; [reflexivity|].
  destruct (Ascii.eqb b bufio.LF); [reflexivity|].
  rewrite IH. destruct (bytes.cutByte bufio.LF t) as [[x y]|]; [reflexivity|].
  now destruct t.
Qed.

Context {A : Type} (body : A -> string -> A).

Lemma scanLoop_scanned fuel data acc :
  (String.length data < fuel)%nat ->
  let r := bufio.scanLoop fuel body (bufio.mkScanner data None) acc in
  (fst r, bufio.err (snd r)) = Spec.scanned body (Spec.rawLines data) acc.
Proof.
  revert data acc. induction fuel as [|fuel IH]; intros data acc Hlt; [lia|].
  cbn [bufio.scanLoop]. unfold bufio.Scan. cbn [bufio.err bufio.unread].
  rewrite rawLines_cut.
  destruct (bytes.cutByte bufio.LF data) as [[line rest]|] eqn:Hcut.
  - cbn [Spec.scanned].
    destruct (String.length line <? bufio.MaxScanTokenSize)%nat; [|reflexivity].
    apply IH. apply cutByte_length in Hcut. lia.
  - destruct data as [|b t]; [reflexivity|].
    cbn [Spec.scanned].
    destruct (String.length (String b t) <? bufio.MaxScanTokenSize)%nat;
      [|reflexivity].
    destruct fuel as [|fuel]; [simpl in Hlt; lia|]. reflexivity.
Qed.

Lemma forScan_scanned data acc :
  let r := bufio.forScan body (bufio.NewScanner data) acc in
  (fst r, bufio.err (snd r)) = Spec.scanned body (Spec.rawLines data) acc.
Proof. apply scanLoop_scanned. simpl. lia. Qed.

Lemma scanned_fits lines acc :
  Forall Spec.fits lines ->
  Spec.scanned body lines acc = (fold_left body (map bufio.dropCR lines) acc, None).
Proof.
  intros H. revert acc. induction H as [|l ls Hl _ IH]; intros acc; simpl.
  - reflexivity.
  - apply Nat.ltb_lt in Hl. rewrite Hl. apply IH.
Qed.


End Scanning.


(** [os.Args[1:]] when the program name is there. *)
Lemma slice_from_1 {A} (x : A) (l : list A) : slice_from 1 (x :: l) = Some l.
Proof. reflexivity. Qed.

(** ** The flag parser *)
Section Flags.

Context {St : Type} (formal : flag.FlagSet St).

(** A flag that is seen takes at least one argument away. *)
Lemma parseOne_consumes st args st' args' :
  flag.parseOne formal st args = flag.Seen st' args' ->
  (length args' < length args)%nat.
Proof.
  unfold flag.parseOne. intros H.
  repeat case_match; simplify_eq; simpl; lia.
Qed.

(** The loop of [Parse] has all the fuel it needs. *)
Lemma parseLoop_fuel fuel fuel' st args :
  (length args < fuel)%nat -> (length args < fuel')%nat ->
  flag.parseLoop fuel formal st args = flag.parseLoop fuel' formal st args.
Proof.
  revert fuel' st args.
  induction fuel as [|fuel IH]; intros [|fuel'] st args H H'; try lia.
  cbn [flag.parseLoop].
  destruct (flag.parseOne formal st args) as [st' args'| |] eqn:Hone;
    try reflexivity.
  apply parseOne_consumes in Hone. apply IH; lia.
Qed.

End Flags.

(** ** myXargs *)
Section Xargs.

Variable run : string -> list string -> string * option error.




End Xargs.


(** ** myWc: the flags *)

(** C7: more than one of -l, -w, -m is an error, and [main] panics with it
    before any file is read; exactly one gives the mode of that flag; none
    gives the mode of words. *)
Theorem validateFlags_modes (l w m : bool) :
  ((1 < Spec.given l w m)%nat ->
   myWc.validateFlags l w m
     = (0%Z, Some "Only one of -l, -w, -m can be specified") /\
   forall fs prog arguments args,
     flag.Parse myWc.formal (myWc.mkModes false false false) arguments
       = flag.Flags (myWc.mkModes l w m) args ->
     myWc.main fs (prog :: arguments)
       = myWc.mkRun (Panicked "Only one of -l, -w, -m can be specified") [] []) /\
  (Spec.given l w m = 1%nat ->
   exists c, Spec.flagOf c l w m = true /\
             myWc.validateFlags l w m = (Spec.code c, None)) /\
  (Spec.given l w m = 0%nat ->
   myWc.validateFlags l w m = (Spec.code Spec.Words, None)).
Proof.
  split; [|split].
  - intros H. assert (Hv : myWc.validateFlags l w m
      = (0%Z, Some "Only one of -l, -w, -m can be specified")).
    { destruct l, w, m; vm_compute in H; try lia; reflexivity. }
    split; [exact Hv|]. intros fs prog arguments args Hp.
    unfold myWc.main. rewrite slice_from_1, Hp. cbn [myWc.lMode myWc.wMode myWc.mMode]. now rewrite Hv.
  - intros H. destruct l, w, m; vm_compute in H; try discriminate.
    + exists Spec.Lines. split; reflexivity.
    + exists Spec.Words. split; reflexivity.
    + exists Spec.Characters. split; reflexivity.
  - intros H. destruct l, w, m; vm_compute in H; try discriminate.
    reflexivity.
Qed.

Lemma validateFlags_modes_hold :
  ((1 < Spec.given true false true)%nat /\
   myWc.validateFlags true false true
     = (0%Z, Some "Only one of -l, -w, -m can be specified")) /\
  (Spec.given true false false = 1%nat /\
   exists c, Spec.flagOf c true false false = true /\
             myWc.validateFlags true false false = (Spec.code c, None)) /\
  (Spec.given false false false = 0%nat /\
   myWc.validateFlags false false false = (Spec.code Spec.Words, None)).
Proof.
  split; [|split].
  - assert (H : (1 < Spec.given true false true)%nat) by (vm_compute; lia).
    split; [exact H|].
    exact (proj1 (proj1 (validateFlags_modes true false true) H)).
  - split; [reflexivity|].
    exact (proj1 (proj2 (validateFlags_modes true false false)) eq_refl).
  - split; [reflexivity|].
    exact (proj2 (proj2 (validateFlags_modes false false false)) eq_refl).
Defined.

(** ** myRotate: the name of the archive *)

(** C5: a file named [B.log] whose modification time is [T] gets the
    archive name [B_T.tar.gz], the time written in decimal; so does
    app.log. *)
Theorem getArchiveName_log (B : string) (T mode : Z) (w : myRotate.World) :
  myRotate.getArchiveName (os.mkFileInfo (B +:+ ".log") mode T) w
    = ((B +:+ "_" +:+ fmt.d T +:+ ".tar.gz", true), w) /\
  myRotate.getArchiveName (os.mkFileInfo "app.log" mode T) w
    = (("app_" +:+ fmt.d T +:+ ".tar.gz", true), w).
Proof.
  assert (H : forall b, myRotate.getArchiveName
                          (os.mkFileInfo (b +:+ ".log") mode T) w
                        = ((b +:+ "_" +:+ fmt.d T +:+ ".tar.gz", true), w)).
  { intros b. unfold myRotate.getArchiveName. cbn [os.Name os.ModTimeUnix].
    now rewrite CutSuffix_append. }
  split; [apply H | apply (H "app")].
Qed.

(** ** myFind *)
Section Find.

Variable cwd : filepath.Node.
Variable o : myFind.Options.

(** The walk calls its function on the visited entries, one after the
    other. *)
Lemma walk_visits {A} (fn : string -> option os.FileInfo -> option error -> A -> A) :
  forall n path acc,
    filepath.walk fn path n acc =
    fold_left (fun acc v => fn (fst (fst v)) (Some (snd (fst v))) (snd v) acc)
              (Spec.visits path n) acc.
Proof.
  fix IH 1. intros [info link | info readErr entries] path acc.
  - reflexivity.
  - cbn [filepath.walk Spec.visits fold_left fst snd].
    destruct readErr; [reflexivity|].
    generalize (fn path (Some info) None acc). clear acc.
    induction entries as [|[name child] es IHes]; intros acc.
    + reflexivity.
    + rewrite fold_left_app, <- IH. apply IHes.
Qed.

(** The test of [walkFn] looks at the read bit of the owner, bit 8 of the
    mode. *)
Lemma owner_read_bit (mode : Z) :
  Z.testbit mode 8 = false ->
  Z.land (Z.land mode os.ModePerm) 0x100 = 0%Z.
Proof.
  intros H. apply Z.bits_inj'. intros n Hn.
  rewrite !Z.land_spec, Z.bits_0.
  destruct (Z.eq_dec n 8%Z) as [->|Hne].
  - now rewrite H.
  - change 0x100%Z with (2 ^ 8)%Z.
    rewrite (Z.pow2_bits_false 8%Z n) by lia. apply andb_false_r.
Qed.

Lemma walkFn_stderr_grows path info err st line :
  In line (myFind.stderr st) ->
  In line (myFind.stderr (myFind.walkFn cwd o path info err st)).
Proof.
  intros H. unfold myFind.walkFn. destruct info as [info|]; [|exact H].
  destruct (negb _).
  - unfold myFind.printEntity.
    repeat match goal with |- context [if ?b then _ else _] => destruct b end;
      try exact H.
    generalize dependent st. induction (myFind.exts o) as [|e es IHe];
      intros st H; simpl; [exact H|].
    apply IHe. now destruct (strings.HasSuffix path e).
  - cbn [myFind.stderr]. apply in_or_app. now left.
Qed.

(** What [printEntity] prints for a symbolic link when links are asked
    for: the path, and what [EvalSymlinks] makes of the base name. *)
Lemma printEntity_symlink path info dm fm st :
  os.IsDir info = false ->
  os.IsRegular (os.Mode info) = false ->
  Z.land (os.Mode info) os.ModeSymlink <> 0%Z ->
  myFind.printEntity cwd path info dm fm true (myFind.exts o) st
    = myFind.mkState
        (myFind.stdout st ++
           [path +:+ " -> " +:+
              match filepath.EvalSymlinks cwd (os.Name info) with
              | inl resolved => resolved
              | inr _ => "[broken]"
              end +:+ newline])
        (myFind.stderr st) (myFind.panicked st).
Proof.
  intros Hd Hr Hl. unfold myFind.printEntity. rewrite Hd, Hr.
  apply Z.eqb_neq in Hl. now rewrite Hl.
Qed.

(** C8: an entry whose mode lacks the read bit of the owner gets the line
    "path: Permission denied" on stderr and nothing on stdout, whatever the
    options and whatever an access check would say; and the line is among
    the diagnostics of every walk that visits the entry. *)
Theorem walkFn_permission_denied path info err st :
  Z.testbit (os.Mode info) 8 = false ->
  myFind.walkFn cwd o path (Some info) err st
    = myFind.mkState (myFind.stdout st)
        (myFind.stderr st ++ [path +:+ ": Permission denied" +:+ newline])
        (myFind.panicked st) /\
  forall root n st0,
    In (path, info, err) (Spec.visits root n) ->
    In (path +:+ ": Permission denied" +:+ newline)
       (myFind.stderr (filepath.walk (myFind.walkFn cwd o) root n st0)).
Proof.
  intros Hbit.
  assert (Hfn : forall e s, myFind.walkFn cwd o path (Some info) e s
    = myFind.mkState (myFind.stdout s)
        (myFind.stderr s ++ [path +:+ ": Permission denied" +:+ newline])
        (myFind.panicked s)).
  { intros e s. unfold myFind.walkFn.
    now rewrite (owner_read_bit _ Hbit). }
  split; [apply Hfn|].
  intros root n st0 Hin. rewrite walk_visits.
  generalize dependent st0.
  induction (Spec.visits root n) as [|v vs IHv]; intros st0; [destruct Hin|].
  destruct Hin as [->|Hin]; [|now apply IHv].
  cbn [fold_left fst snd]. rewrite Hfn.
  assert (Hhere : In (path +:+ ": Permission denied" +:+ newline)
            (myFind.stderr (myFind.mkState (myFind.stdout st0)
               (myFind.stderr st0 ++ [path +:+ ": Permission denied" +:+ newline])
               (myFind.panicked st0)))).
  { cbn [myFind.stderr]. apply in_or_app. right. now left. }
  revert Hhere. generalize (myFind.mkState (myFind.stdout st0)
               (myFind.stderr st0 ++ [path +:+ ": Permission denied" +:+ newline])
               (myFind.panicked st0)).
  clear IHv. induction vs as [|v vs IHvs]; intros s Hs; [exact Hs|].
  cbn [fold_left]. apply IHvs. now apply walkFn_stderr_grows.
Qed.

End Find.

Lemma walkFn_permission_denied_secret :
  Z.testbit (os.Mode Inputs.secret) 8 = false /\
  myFind.walkFn Inputs.linked (myFind.mkOptions true true true [])
                "d/secret" (Some Inputs.secret) None (myFind.mkState [] [] None)
    = myFind.mkState [] ["d/secret: Permission denied" +:+ newline] None.
Proof.
  split; [reflexivity|].
  exact (proj1 (walkFn_permission_denied Inputs.linked
           (myFind.mkOptions true true true []) "d/secret" Inputs.secret None
           (myFind.mkState [] [] None) eq_refl)).
Defined.

(** C2, at a link that resolves: d/link points to the file d/x.txt, and
    the lister, started in the directory that holds d, prints it as
    broken.  [printEntity] resolves the base name of the entry, not its
    path. *)
Theorem valid_link_printed_as_broken :
  filepath.EvalSymlinks Inputs.linked "d/link" = inl "d/x.txt" /\
  myFind.main Inputs.linked ["myFind"; "d"]
    = myFind.mkRun Returned
        ["d" +:+ newline; "d/link -> [broken]" +:+ newline;
         "d/x.txt" +:+ newline] [].
Proof. split; vm_compute; reflexivity. Qed.

(** The lister on the tree with a dangling link: with no flag all three
    entries are listed, the link as broken; with -f -ext txt only the
    file. *)
Example main_lists_dangling_link :
  myFind.printed (myFind.main Inputs.dangling ["myFind"; "d"])
    = ["d" +:+ newline; "d/link -> [broken]" +:+ newline; "d/x.txt" +:+ newline] /\
  myFind.printed (myFind.main Inputs.dangling ["myFind"; "-f"; "-ext"; "txt"; "d"])
    = ["d/x.txt" +:+ newline].
Proof. split; vm_compute; reflexivity. Qed.

(** ** myRotate: the start of [main] *)

(** C1, as the code has it: when the flag value is empty, [main] panics on
    the error of [os.Stat] of the empty path, before any file is looked
    at. *)
Theorem main_without_destination_panics Args arguments rest w :
  slice_from 1 Args = Some arguments ->
  flag.Parse myRotate.formal EmptyString arguments = flag.Flags EmptyString rest ->
  myRotate.main Args w = (Panicked "stat : no such file or directory", w).
Proof.
  intros Hs Hp. unfold myRotate.main, myRotate.startup. now rewrite Hs, Hp.
Qed.

Lemma main_app_log_panics :
  myRotate.main ["myRotate"; "a.log"] (Inputs.logs Inputs.noFault)
    = (Panicked "stat : no such file or directory", Inputs.logs Inputs.noFault).
Proof.
  apply (main_without_destination_panics ["myRotate"; "a.log"] ["a.log"] ["a.log"]);
    reflexivity.
Defined.

(** C9: when the flag value is not empty the files archived are the
    arguments from index 3 on; with the flag and its value in the one
    argument -a=old, the file that follows it is left out. *)
Theorem files_are_arguments_from_3 Args w dest files w' :
  myRotate.startup Args w = (myRotate.Launch dest files, w') ->
  dest <> EmptyString ->
  (files = skipn 3 Args /\
   myRotate.main Args w
     = (Returned, foldl (fun w path => myRotate.archive dest path w) w
                        (skipn 3 Args))) /\
  forall v f,
    myRotate.fs v !! "old" = Some f -> os.IsDir (os.info f) = true ->
    myRotate.startup ["myRotate"; "-a=old"; "a.log"; "b.log"] v
      = (myRotate.Launch "old" ["b.log"], v).
Proof.
  intros Hs Hne. split.
  - unfold myRotate.main. rewrite Hs.
    unfold myRotate.startup in Hs.
    destruct (slice_from 1 Args) as [arguments|]; [|discriminate].
    destruct (flag.Parse myRotate.formal EmptyString arguments)
      as [d rest|]; [|discriminate].
    destruct (os.Stat (myRotate.fs w) d) as [destInfo|]; [|discriminate].
    destruct (negb (os.IsDir destInfo)); [discriminate|].
    destruct (String.eqb d EmptyString) eqn:Hd.
    + apply String.eqb_eq in Hd. subst d.
      destruct (length arguments <? 1)%nat; [discriminate|]. congruence.
    + unfold slice_from in Hs.
      destruct (3 <=? length Args)%nat; [|discriminate].
      destruct (length (skipn 3 Args) <? 1)%nat; [discriminate|].
      injection Hs as <- <- <-. split; reflexivity.
  - intros v f Hold Hdir. unfold myRotate.startup.
    rewrite slice_from_1.
    change (flag.Parse myRotate.formal EmptyString ["-a=old"; "a.log"; "b.log"])
      with (flag.Flags "old" ["a.log"; "b.log"]).
    unfold os.Stat. cbn [String.eqb Ascii.eqb Bool.eqb]. rewrite Hold, Hdir.
    reflexivity.
Qed.

Lemma files_are_arguments_from_3_old :
  myRotate.startup ["myRotate"; "-a=old"; "a.log"; "b.log"]
                   (Inputs.logs Inputs.noFault)
    = (myRotate.Launch "old" ["b.log"], Inputs.logs Inputs.noFault) /\
  "old" <> EmptyString /\
  ["b.log"] = skipn 3 ["myRotate"; "-a=old"; "a.log"; "b.log"].
Proof.
  assert (Hs : myRotate.startup ["myRotate"; "-a=old"; "a.log"; "b.log"]
                 (Inputs.logs Inputs.noFault)
               = (myRotate.Launch "old" ["b.log"], Inputs.logs Inputs.noFault))
    by (vm_compute; reflexivity).
  assert (Hne : "old" <> EmptyString) by discriminate.
  split; [exact Hs|]. split; [exact Hne|].
  exact (proj1 (proj1 (files_are_arguments_from_3 _ _ _ _ _ Hs Hne))).
Defined.

(** ** myRotate: a failed archive *)
Section FailedArchive.



(** A failure that shows only when the writers are closed is not
    returned: the deferred calls drop it. *)
Lemma fillArchive_close_error_dropped path info w data e :
  os.Open (myRotate.fs w) path = inl data ->
  myRotate.fault w path = Some (myRotate.AtClose, e) ->
  myRotate.fillArchive path info w
    = (None, myRotate.fmt_Println ("ARCHIVED: " +:+ path) w).
Proof.
  intros Ho Hf. unfold myRotate.fillArchive, myRotate.failsAt.
  now rewrite Ho, Hf.
Qed.



End FailedArchive.




(** ** myWc: the counts *)
Section Counting.
Local Open Scope Z_scope.

Lemma int64_small z : - 2 ^ 63 <= z < 2 ^ 63 -> int64 z = z.
Proof.
  intros H. unfold int64, wrap. change (2 ^ (64 - 1)) with (2 ^ 63).
  rewrite Z.mod_small; lia.
Qed.

Lemma fieldsASCII_length cur s :
  (length (strings.fieldsASCII cur s)
   <= String.length s + match cur with Some _ => 1 | None => 0 end)%nat.
Proof.
  revert cur. induction s as [|c t IH]; intros cur; simpl.
  - destruct cur; simpl; lia.
  - destruct (strings.asciiSpace c), cur; simpl;
      match goal with
      | |- context [strings.fieldsASCII ?x t] => specialize (IH x)
      end; simpl in IH; lia.
Qed.

Lemma fieldsFunc_length f skip cur s :
  (length (strings.fieldsFunc f skip cur s)
   <= String.length s + match cur with Some _ => 1 | None => 0 end)%nat.
Proof.
  revert skip cur. induction s as [|c t IH]; intros skip cur.
  - destruct cur; simpl; lia.
  - cbn [strings.fieldsFunc String.length]. destruct skip as [|k].
    + destruct (utf8.DecodeRuneInString (String c t)) as [r size].
      destruct (f r), cur; cbn [length];
        match goal with
        | |- context [strings.fieldsFunc f ?k ?x t] => specialize (IH k x)
        end; simpl in IH; lia.
    + specialize (IH k (option_map (fun fld => fld +:+ String c EmptyString) cur)).
      destruct cur; cbn [option_map] in *; lia.
Qed.

Lemma Fields_length s : (length (strings.Fields s) <= String.length s)%nat.
Proof.
  unfold strings.Fields, strings.FieldsFunc.
  destruct (strings.hasNonASCII s).
  - pose proof (fieldsFunc_length utf8.IsSpace 0 None s). simpl in *. lia.
  - pose proof (fieldsASCII_length None s). simpl in *. lia.
Qed.

Lemma runeCount_length skip s : (utf8.runeCount skip s <= String.length s)%nat.
Proof.
  revert skip. induction s as [|c t IH]; intros skip; [simpl; lia|].
  cbn [utf8.runeCount String.length]. destruct skip as [|k].
  - specialize (IH (Nat.pred (snd (utf8.DecodeRuneInString (String c t))))). lia.
  - specialize (IH k). lia.
Qed.

Lemma perLine_bounds c line :
  0 <= Spec.perLine c line <= Z.of_nat (String.length line) + 1.
Proof.
  destruct c; simpl.
  - lia.
  - pose proof (Fields_length line). lia.
  - pose proof (runeCount_length 0 line). unfold utf8.RuneCountInString. lia.
Qed.

(** One round of the loop adds what the line is worth in the mode. *)
Lemma count_perLine c res line :
  0 <= res -> res + Z.of_nat (String.length line) + 1 < 2 ^ 63 ->
  myWc.count (Spec.code c) res line = res + Spec.perLine c line.
Proof.
  intros Hres Hsum. pose proof (perLine_bounds c line) as Hb.
  destruct c; unfold myWc.count; simpl in *.
  - apply int64_small. lia.
  - apply int64_small. lia.
  - rewrite (int64_small (_ + 1)) by lia. apply int64_small. lia.
Qed.

Lemma fold_count c lines acc :
  0 <= acc -> acc + Spec.weight lines < 2 ^ 63 ->
  fold_left (myWc.count (Spec.code c)) lines acc
    = acc + foldr (fun line a => Spec.perLine c line + a) 0 lines.
Proof.
  revert acc. induction lines as [|l ls IH]; intros acc Hacc Hw; simpl.
  - lia.
  - simpl in Hw.
    assert (0 <= Spec.weight ls).
    { clear. induction ls; simpl; lia. }
    pose proof (perLine_bounds c l).
    rewrite count_perLine by lia. rewrite IH by lia. lia.
Qed.

Lemma dropCR_length s :
  (String.length (bufio.dropCR s) <= String.length s)%nat.
Proof.
  induction s as [|c t IH]; [simpl; lia|].
  destruct t as [|c' t'].
  - simpl. destruct (Ascii.eqb c bufio.CR); simpl; lia.
  - change (bufio.dropCR (String c (String c' t')))
      with (String c (bufio.dropCR (String c' t'))).
    simpl in *. lia.
Qed.

Lemma weight_rawLines data :
  Spec.weight (Spec.rawLines data) <= Z.of_nat (String.length data) + 1.
Proof.
  induction data as [|c t IH]; [simpl; lia|].
  cbn [Spec.rawLines String.length]. destruct (Ascii.eqb c bufio.LF).
  - simpl in *. lia.
  - destruct (Spec.rawLines t) as [|l ls]; simpl in *; lia.
Qed.

Lemma weight_textLines data :
  Spec.weight (Spec.textLines data) <= Z.of_nat (String.length data) + 1.
Proof.
  pose proof (weight_rawLines data) as H. unfold Spec.textLines.
  revert H. generalize (Z.of_nat (String.length data) + 1).
  induction (Spec.rawLines data) as [|l ls IH]; intros bound H; simpl in *.
  - exact H.
  - pose proof (dropCR_length l).
    specialize (IH (bound - Z.of_nat (String.length l) - 1)). lia.
Qed.

(** The count [processFile] leaves in the map, for a regular file that can
    be read and whose lines fit the buffer of the scanner: the sum over the
    lines of what a line is worth in the mode.  (The bound on the size keeps
    the int from wrapping; no file is that large.) *)
Lemma processFile_counts fs path c st info data :
  os.Stat fs path = inl info ->
  os.IsRegular (os.Mode info) = true ->
  os.Open fs path = inl data ->
  Forall Spec.fits (Spec.rawLines data) ->
  Z.of_nat (String.length data) < 2 ^ 62 ->
  myWc.processFile fs path (Spec.code c) st
    = myWc.mkState (<[path := Spec.total c data]> (myWc.files st))
                   (myWc.stderr st).
Proof.
  intros Hstat Hreg Hopen Hfit Hsize.
  unfold myWc.processFile. rewrite Hstat, Hreg, Hopen. cbn [negb].
  pose proof (forScan_scanned (myWc.count (Spec.code c)) data 0) as H.
  cbv zeta in H.
  destruct (bufio.forScan _ (bufio.NewScanner data) 0) as [res sc].
  cbn [fst snd] in H. rewrite (scanned_fits _ _ _ Hfit) in H.
  injection H as -> _.
  pose proof (weight_textLines data).
  unfold Spec.total. fold (Spec.textLines data).
  rewrite fold_count by lia. reflexivity.
Qed.

(** The line [main] prints for the one file it is given. *)
Lemma main_one_file fs prog arguments fl path c info data :
  flag.Parse myWc.formal (myWc.mkModes false false false) arguments
    = flag.Flags fl [path] ->
  myWc.validateFlags (myWc.lMode fl) (myWc.wMode fl) (myWc.mMode fl)
    = (Spec.code c, None) ->
  os.Stat fs path = inl info ->
  os.IsRegular (os.Mode info) = true ->
  os.Open fs path = inl data ->
  Forall Spec.fits (Spec.rawLines data) ->
  Z.of_nat (String.length data) < 2 ^ 62 ->
  myWc.main fs (prog :: arguments)
    = myWc.mkRun Returned
        [fmt.d (Spec.total c data) +:+ tab +:+ path +:+ newline] [].
Proof.
  intros Hp Hv Hstat Hreg Hopen Hfit Hsize.
  unfold myWc.main. rewrite slice_from_1, Hp, Hv.
  cbn [length Nat.ltb Nat.leb foldl].
  rewrite insert_empty, map_to_list_singleton. cbn [map fst foldl].
  rewrite (processFile_counts _ _ _ _ _ _ Hstat Hreg Hopen Hfit Hsize).
  cbn [myWc.files myWc.stderr].
  rewrite insert_singleton_eq, map_to_list_singleton. reflexivity.
Qed.

End Counting.

Lemma processFile_counts_notes :
  myWc.files
    (myWc.processFile Inputs.notes "notes.txt" (Spec.code Spec.Characters)
                      (myWc.mkState ∅ []))
    !! "notes.txt" = Some 25%Z.
Proof.
  rewrite (processFile_counts Inputs.notes "notes.txt" Spec.Characters
             (myWc.mkState ∅ [])
             (os.mkFileInfo "notes.txt" Inputs.fileMode 0)
             ("hello world" +:+ newline +:+ "foo  bar baz" +:+ newline)).
  - reflexivity.
  - reflexivity.
  - reflexivity.
  - reflexivity.
  - repeat constructor; apply Nat.ltb_lt; vm_compute; reflexivity.
  - vm_compute. reflexivity.
Defined.

(** C3, at a line that fills the buffer: big.txt has one line, of 65536
    bytes and its newline; the scanner stops with [ErrTooLong] before it,
    [processFile] does not look at the error of the scanner, and [main]
    reports 0 in each mode where the claim has 1 line, 1 word and 65537
    characters. *)
Theorem long_line_counted_as_nothing :
  bufio.err (snd (bufio.forScan (myWc.count 3) (bufio.NewScanner Inputs.longLine) 0%Z))
    = Some bufio.ErrTooLong /\
  (Spec.total Spec.Lines Inputs.longLine = 1 /\
   Spec.total Spec.Words Inputs.longLine = 1 /\
   Spec.total Spec.Characters Inputs.longLine = 65537)%Z /\
  myWc.main Inputs.big ["myWc"; "-l"; "big.txt"]
    = myWc.mkRun Returned ["0" +:+ tab +:+ "big.txt" +:+ newline] [] /\
  myWc.main Inputs.big ["myWc"; "-w"; "big.txt"]
    = myWc.mkRun Returned ["0" +:+ tab +:+ "big.txt" +:+ newline] [] /\
  myWc.main Inputs.big ["myWc"; "-m"; "big.txt"]
    = myWc.mkRun Returned ["0" +:+ tab +:+ "big.txt" +:+ newline] [].
Proof. repeat split; vm_compute; reflexivity. Qed.

(** * Further properties of the four programs *)

(** ** myWc: one task and the whole run *)
Section Tasks.

Variable fs : gmap string os.File.
Variable mode : Z.

(** [processFile] leaves the entries of the other paths alone. *)
Lemma processFile_other path st q :
  q <> path ->
  myWc.files (myWc.processFile fs path mode st) !! q = myWc.files st !! q.
Proof.
  intros Hne. unfold myWc.processFile, myWc.handleFileErr.
  destruct (os.Stat fs path) as [info|e]; cbn [myWc.files].
  - destruct (negb (os.IsRegular (os.Mode info))); cbn [myWc.files].
    + now apply lookup_delete_ne.
    + destruct (os.Open fs path) as [data|e]; cbn [myWc.files].
      * destruct (bufio.forScan _ _ _) as [res sc]. cbn [myWc.files].
        now apply lookup_insert_ne.
      * now apply lookup_delete_ne.
  - now apply lookup_delete_ne.
Qed.


Lemma processFile_unreadable path st :
  Spec.readable fs path = false ->
  myWc.files (myWc.processFile fs path mode st) = delete path (myWc.files st) /\
  exists line,
    myWc.stderr (myWc.processFile fs path mode st) = myWc.stderr st ++ [line].
Proof.
  unfold Spec.readable, myWc.processFile, myWc.handleFileErr.
  destruct (os.Stat fs path) as [info|e]; [|intros _; eauto].
  destruct (os.IsRegular (os.Mode info)); cbn [negb andb]; [|intros _; eauto].
  destruct (os.Open fs path) as [data|e]; [discriminate|intros _; eauto].
Qed.

Lemma processFile_readable path st :
  Spec.readable fs path = true ->
  is_Some (myWc.files (myWc.processFile fs path mode st) !! path) /\
  myWc.stderr (myWc.processFile fs path mode st) = myWc.stderr st.
Proof.
  unfold Spec.readable, myWc.processFile.
  destruct (os.Stat fs path) as [info|e]; [|discriminate].
  destruct (os.IsRegular (os.Mode info)); cbn [negb andb]; [|discriminate].
  destruct (os.Open fs path) as [data|e]; [intros _|discriminate].
  destruct (bufio.forScan _ _ _) as [res sc]. cbn [myWc.files myWc.stderr].
  rewrite lookup_insert_eq. eauto.
Qed.

(** X1: a path that cannot be counted (it is missing, it is not a regular
    file, or it does not open) is deleted from the map with one line of
    diagnostic; a path that can be counted gets an entry and no
    diagnostic; the other entries stay as they are. *)
Theorem processFile_drops_unreadable path st :
  (Spec.readable fs path = false ->
   myWc.files (myWc.processFile fs path mode st) = delete path (myWc.files st) /\
   exists line,
     myWc.stderr (myWc.processFile fs path mode st) = myWc.stderr st ++ [line]) /\
  (Spec.readable fs path = true ->
   is_Some (myWc.files (myWc.processFile fs path mode st) !! path) /\
   myWc.stderr (myWc.processFile fs path mode st) = myWc.stderr st) /\
  (forall q, q <> path ->
   myWc.files (myWc.processFile fs path mode st) !! q = myWc.files st !! q).
Proof.
  split; [apply processFile_unreadable|].
  split; [apply processFile_readable|].
  intros q. apply processFile_other.
Qed.


End Tasks.

Lemma processFile_drops_gone :
  Spec.readable Inputs.notes "gone.txt" = false /\
  myWc.files (myWc.processFile Inputs.notes "gone.txt" 2
                (myWc.mkState (<["gone.txt" := 0%Z]> ∅) []))
    = delete "gone.txt" (<["gone.txt" := 0%Z]> ∅).
Proof.
  split; [reflexivity|].
  exact (proj1 (proj1 (processFile_drops_unreadable Inputs.notes 2 "gone.txt"
                         (myWc.mkState (<["gone.txt" := 0%Z]> ∅) [])) eq_refl)).
Defined.





(** ** myWc: what the three counts are *)
Section Counts.
Local Open Scope Z_scope.

Lemma rawLines_nil data : Spec.rawLines data = [] -> data = EmptyString.
Proof.
  destruct data as [|c t]; [reflexivity|]. simpl.
  destruct (Ascii.eqb c bufio.LF); [discriminate|].
  destruct (Spec.rawLines t); discriminate.
Qed.

Lemma length_rawLines data :
  length (Spec.rawLines data)
    = (Spec.newlines data + if Spec.openEnded data then 1 else 0)%nat.
Proof.
  induction data as [|c t IH]; [reflexivity|].
  cbn [Spec.rawLines Spec.newlines Spec.openEnded].
  destruct (Ascii.eqb c bufio.LF) eqn:Hc.
  - cbn [length negb]. rewrite IH. now destruct t.
  - cbn [negb]. destruct (Spec.rawLines t) as [|l ls] eqn:Hl.
    + apply rawLines_nil in Hl. subst t. reflexivity.
    + destruct t as [|c' t']; [discriminate|]. exact IH.
Qed.

Lemma weight_rawLines_exact data :
  Spec.weight (Spec.rawLines data)
    = Z.of_nat (String.length data) + if Spec.openEnded data then 1 else 0.
Proof.
  induction data as [|c t IH]; [reflexivity|].
  cbn [Spec.rawLines Spec.openEnded String.length].
  destruct (Ascii.eqb c bufio.LF) eqn:Hc.
  - cbn [negb]. change (Spec.weight (EmptyString :: Spec.rawLines t))
      with (0 + 1 + Spec.weight (Spec.rawLines t)).
    rewrite IH. destruct t; simpl; lia.
  - cbn [negb]. destruct (Spec.rawLines t) as [|l ls] eqn:Hl.
    + apply rawLines_nil in Hl. subst t. reflexivity.
    + destruct t as [|c' t']; [discriminate|].
      change (Spec.weight (String c l :: ls))
        with (Z.of_nat (S (String.length l)) + 1 + Spec.weight ls).
      change (Spec.weight (l :: ls))
        with (Z.of_nat (String.length l) + 1 + Spec.weight ls) in IH.
      lia.
Qed.

Lemma total_Lines data :
  Spec.total Spec.Lines data = Z.of_nat (length (Spec.rawLines data)).
Proof.
  unfold Spec.total, Spec.textLines.
  induction (Spec.rawLines data) as [|l ls IH]; [reflexivity|].
  cbn [map foldr length]. rewrite IH. cbn [Spec.perLine]. lia.
Qed.

Lemma rawLines_plain data :
  Spec.plain data = true ->
  Forall (fun l => Spec.plain l = true) (Spec.rawLines data).
Proof.
  induction data as [|c t IH]; [constructor|].
  cbn [Spec.plain Spec.rawLines]. intros H.
  apply andb_prop in H as [Hc Ht]. specialize (IH Ht).
  destruct (Ascii.eqb c bufio.LF).
  - now constructor.
  - destruct (Spec.rawLines t) as [|l ls].
    + constructor; [|constructor]. simpl. now rewrite Hc.
    + inversion IH; subst. constructor; [|assumption].
      simpl. now rewrite Hc.
Qed.

Lemma dropCR_plain l : Spec.plain l = true -> bufio.dropCR l = l.
Proof.
  induction l as [|c t IH]; [reflexivity|].
  cbn [Spec.plain]. intros H. apply andb_prop in H as [Hc Ht].
  apply andb_prop in Hc as [_ Hc]. destruct t as [|c' t'].
  - simpl. now destruct (Ascii.eqb c bufio.CR).
  - change (bufio.dropCR (String c (String c' t')))
      with (String c (bufio.dropCR (String c' t'))).
    now rewrite IH.
Qed.

(** An ASCII byte is a rune of one byte. *)
Lemma DecodeRune_ASCII c t :
  byteZ c < utf8.RuneSelf -> snd (utf8.DecodeRuneInString (String c t)) = 1%nat.
Proof.
  intros H. unfold utf8.DecodeRuneInString, utf8.first, utf8.RuneSelf in *.
  apply Z.ltb_lt in H. rewrite H. reflexivity.
Qed.

Lemma runeCount_plain l :
  Spec.plain l = true -> utf8.RuneCountInString l = String.length l.
Proof.
  unfold utf8.RuneCountInString. induction l as [|c t IH]; [reflexivity|].
  cbn [Spec.plain]. intros H. apply andb_prop in H as [Hc Ht].
  apply andb_prop in Hc as [Hc _]. apply Z.ltb_lt in Hc.
  cbn [utf8.runeCount String.length]. rewrite (DecodeRune_ASCII c t Hc).
  cbn [Nat.pred]. now rewrite IH.
Qed.

Lemma total_Characters_plain data :
  Spec.plain data = true ->
  Spec.total Spec.Characters data
    = Z.of_nat (String.length data) + if Spec.openEnded data then 1 else 0.
Proof.
  intros H. rewrite <- weight_rawLines_exact.
  apply rawLines_plain in H. unfold Spec.total, Spec.textLines.
  induction H as [|l ls Hl _ IH]; [reflexivity|].
  cbn [map foldr Spec.weight]. rewrite IH. cbn [Spec.perLine].
  now rewrite (dropCR_plain l Hl), (runeCount_plain l Hl).
Qed.

(** Words: the fields of the lines are the fields of the text. *)
Lemma fieldsASCII_lines data : forall cur,
  length (strings.fieldsASCII cur data)
  = match Spec.rawLines data with
    | [] => Spec.opened cur
    | l :: ls =>
      (length (strings.fieldsASCII cur l)
       + foldr (fun l' n => length (strings.fieldsASCII None l') + n) 0 ls)%nat
    end.
Proof.
  induction data as [|c t IH]; intros cur; [now destruct cur|].
  cbn [Spec.rawLines]. destruct (Ascii.eqb c bufio.LF) eqn:Hc.
  - apply Ascii.eqb_eq in Hc. subst c.
    change (strings.fieldsASCII cur (String bufio.LF t))
      with (match cur with
            | Some f => f :: strings.fieldsASCII None t
            | None => strings.fieldsASCII None t
            end).
    specialize (IH None).
    destruct (Spec.rawLines t) as [|l ls]; destruct cur; simpl in *; lia.
  - destruct (Spec.rawLines t) as [|l ls] eqn:Hl.
    + apply rawLines_nil in Hl. subst t. simpl. lia.
    + cbn [strings.fieldsASCII].
      destruct (strings.asciiSpace c), cur; cbn [length];
        match goal with
        | |- context [strings.fieldsASCII ?x t] => rewrite (IH x)
        end; cbn [Spec.opened]; lia.
Qed.

Lemma fieldsASCII_dropCR l : forall cur,
  length (strings.fieldsASCII cur (bufio.dropCR l))
    = length (strings.fieldsASCII cur l).
Proof.
  induction l as [|c t IH]; intros cur; [reflexivity|].
  destruct t as [|c' t'].
  - simpl bufio.dropCR. destruct (Ascii.eqb c bufio.CR) eqn:Hc; [|reflexivity].
    apply Ascii.eqb_eq in Hc. subst c. now destruct cur.
  - change (bufio.dropCR (String c (String c' t')))
      with (String c (bufio.dropCR (String c' t'))).
    cbn [strings.fieldsASCII].
    destruct (strings.asciiSpace c), cur; cbn [length]; now rewrite IH.
Qed.

Lemma rawLines_ASCII data :
  strings.hasNonASCII data = false ->
  Forall (fun l => strings.hasNonASCII l = false) (Spec.rawLines data).
Proof.
  induction data as [|c t IH]; [constructor|].
  cbn [strings.hasNonASCII Spec.rawLines]. intros H.
  apply orb_false_elim in H as [Hc Ht]. specialize (IH Ht).
  destruct (Ascii.eqb c bufio.LF).
  - now constructor.
  - destruct (Spec.rawLines t) as [|l ls].
    + constructor; [|constructor]. simpl. now rewrite Hc.
    + inversion IH; subst. constructor; [|assumption].
      simpl. now rewrite Hc.
Qed.

Lemma dropCR_ASCII l :
  strings.hasNonASCII l = false -> strings.hasNonASCII (bufio.dropCR l) = false.
Proof.
  induction l as [|c t IH]; [reflexivity|]. intros H.
  cbn [strings.hasNonASCII] in H. apply orb_false_elim in H as [Hc Ht].
  destruct t as [|c' t'].
  - simpl. destruct (Ascii.eqb c bufio.CR); simpl; [reflexivity|].
    now rewrite Hc.
  - change (bufio.dropCR (String c (String c' t')))
      with (String c (bufio.dropCR (String c' t'))).
    cbn [strings.hasNonASCII]. now rewrite Hc, IH.
Qed.

Lemma total_Words_ASCII data :
  strings.hasNonASCII data = false ->
  Spec.total Spec.Words data = Z.of_nat (length (strings.Fields data)).
Proof.
  intros H. unfold strings.Fields. rewrite H.
  rewrite (fieldsASCII_lines data None).
  apply rawLines_ASCII in H. unfold Spec.total, Spec.textLines.
  assert (Hsum : forall ls,
    Forall (fun l => strings.hasNonASCII l = false) ls ->
    foldr (fun line acc => Spec.perLine Spec.Words line + acc) 0
          (map bufio.dropCR ls)
    = Z.of_nat (foldr (fun l' n => length (strings.fieldsASCII None l') + n)%nat
                      0%nat ls)).
  { intros ls Hls. induction Hls as [|l ls Hl _ IH]; [reflexivity|].
    cbn [map foldr]. rewrite IH. cbn [Spec.perLine]. unfold strings.Fields.
    rewrite (dropCR_ASCII l Hl), fieldsASCII_dropCR. lia. }
  rewrite (Hsum _ H). destruct H as [|l ls _ _]; [reflexivity|].
  cbn [foldr]. reflexivity.
Qed.

Section Stored.

Variables (fs : gmap string os.File) (path : string) (st : myWc.State).
Variables (info : os.FileInfo) (data : string).
Hypothesis Hstat : os.Stat fs path = inl info.
Hypothesis Hreg : os.IsRegular (os.Mode info) = true.
Hypothesis Hopen : os.Open fs path = inl data.
Hypothesis Hfit : Forall Spec.fits (Spec.rawLines data).
Hypothesis Hsize : Z.of_nat (String.length data) < 2 ^ 62.

(** X3: in line mode the count stored for a regular file that opens and
    whose lines fit the scanner is the number of its newline bytes, and one
    more when bytes follow the last newline. *)
Theorem processFile_lines :
  myWc.files (myWc.processFile fs path 3 st) !! path
    = Some (Z.of_nat (Spec.newlines data)
            + (if Spec.openEnded data then 1 else 0)).
Proof using Hstat Hreg Hopen Hfit Hsize.
  rewrite (processFile_counts _ _ Spec.Lines _ _ _ Hstat Hreg Hopen Hfit Hsize).
  cbn [myWc.files]. rewrite lookup_insert_eq, total_Lines, length_rawLines.
  destruct (Spec.openEnded data); f_equal; lia.
Qed.

(** X4: in character mode the count stored for such a file, when it is
    ASCII text with no carriage return, is the number of its bytes, and one
    more when bytes follow the last newline. *)
Theorem processFile_characters_plain :
  Spec.plain data = true ->
  myWc.files (myWc.processFile fs path 1 st) !! path
    = Some (Z.of_nat (String.length data)
            + (if Spec.openEnded data then 1 else 0)).
Proof using Hstat Hreg Hopen Hfit Hsize.
  intros Hplain.
  rewrite (processFile_counts _ _ Spec.Characters _ _ _ Hstat Hreg Hopen Hfit Hsize).
  cbn [myWc.files]. now rewrite lookup_insert_eq, total_Characters_plain.
Qed.

(** X5: in word mode the count stored for such a file, when it is ASCII
    text, is the number of fields of the whole text: reading it line by
    line loses and adds no word. *)
Theorem processFile_words_ASCII :
  strings.hasNonASCII data = false ->
  myWc.files (myWc.processFile fs path 2 st) !! path
    = Some (Z.of_nat (length (strings.Fields data))).
Proof using Hstat Hreg Hopen Hfit Hsize.
  intros HA.
  rewrite (processFile_counts _ _ Spec.Words _ _ _ Hstat Hreg Hopen Hfit Hsize).
  cbn [myWc.files]. now rewrite lookup_insert_eq, total_Words_ASCII.
Qed.

End Stored.

End Counts.

Lemma notes_fit :
  Forall Spec.fits
    (Spec.rawLines ("hello world" +:+ newline +:+ "foo  bar baz" +:+ newline)).
Proof. repeat constructor; apply Nat.ltb_lt; vm_compute; reflexivity. Defined.

Lemma notes_small :
  (Z.of_nat (String.length
     ("hello world" +:+ newline +:+ "foo  bar baz" +:+ newline)) < 2 ^ 62)%Z.
Proof. vm_compute. reflexivity. Defined.

Lemma processFile_lines_notes :
  myWc.files (myWc.processFile Inputs.notes "notes.txt" 3 (myWc.mkState ∅ []))
    !! "notes.txt" = Some 2%Z.
Proof.
  exact (processFile_lines Inputs.notes "notes.txt" (myWc.mkState ∅ [])
           (os.mkFileInfo "notes.txt" Inputs.fileMode 0)
           ("hello world" +:+ newline +:+ "foo  bar baz" +:+ newline)
           eq_refl eq_refl eq_refl notes_fit notes_small).
Defined.

Lemma processFile_characters_notes :
  myWc.files (myWc.processFile Inputs.notes "notes.txt" 1 (myWc.mkState ∅ []))
    !! "notes.txt" = Some 25%Z.
Proof.
  exact (processFile_characters_plain Inputs.notes "notes.txt"
           (myWc.mkState ∅ [])
           (os.mkFileInfo "notes.txt" Inputs.fileMode 0)
           ("hello world" +:+ newline +:+ "foo  bar baz" +:+ newline)
           eq_refl eq_refl eq_refl notes_fit notes_small eq_refl).
Defined.

Lemma processFile_words_notes :
  myWc.files (myWc.processFile Inputs.notes "notes.txt" 2 (myWc.mkState ∅ []))
    !! "notes.txt" = Some 5%Z.
Proof.
  exact (processFile_words_ASCII Inputs.notes "notes.txt"
           (myWc.mkState ∅ [])
           (os.mkFileInfo "notes.txt" Inputs.fileMode 0)
           ("hello world" +:+ newline +:+ "foo  bar baz" +:+ newline)
           eq_refl eq_refl eq_refl notes_fit notes_small eq_refl).
Defined.

(** ** myXargs: a line that does not fit *)
Section XargsErrors.

Variable run : string -> list string -> string * option error.

Lemma scanned_too_long {A} (body : A -> string -> A) lines acc :
  Exists (fun l => (bufio.MaxScanTokenSize <= String.length l)%nat) lines ->
  snd (Spec.scanned body lines acc) = Some bufio.ErrTooLong.
Proof.
  intros H. revert acc. induction H as [l ls Hl|l ls _ IH]; intros acc; simpl.
  - apply Nat.ltb_ge in Hl. now rewrite Hl.
  - destruct (String.length l <? bufio.MaxScanTokenSize)%nat; [apply IH|reflexivity].
Qed.

(** X6: when a line of standard input has as many bytes as the buffer of
    the scanner or more, [main] panics with the error of the scanner and
    starts no command, whatever the arguments are. *)
Theorem main_panics_on_long_line prog A stdin :
  Exists (fun l => (bufio.MaxScanTokenSize <= String.length l)%nat)
         (Spec.rawLines stdin) ->
  myXargs.main run (prog :: A) stdin
    = myXargs.mkRun None EmptyString (Panicked bufio.ErrTooLong).
Proof.
  intros H. unfold myXargs.main. rewrite slice_from_1.
  pose proof (forScan_scanned (fun arr text => arr ++ [text]) stdin A) as Hs.
  cbv zeta in Hs.
  destruct (bufio.forScan _ (bufio.NewScanner stdin) A) as [arr sc].
  apply (f_equal snd) in Hs. cbn [fst snd] in Hs.
  rewrite (scanned_too_long _ _ _ H) in Hs. now rewrite Hs.
Qed.

End XargsErrors.

Lemma too_long_found lines :
  existsb (fun l => (bufio.MaxScanTokenSize <=? String.length l)%nat) lines = true ->
  Exists (fun l => (bufio.MaxScanTokenSize <= String.length l)%nat) lines.
Proof.
  intros H. apply existsb_exists in H as (l & Hin & Hl).
  apply List.Exists_exists. exists l. split; [exact Hin|now apply Nat.leb_le].
Qed.

Lemma main_panics_on_long_line_echo :
  myXargs.main Inputs.echo ["myXargs"; "echo"] Inputs.longLine
    = myXargs.mkRun None EmptyString (Panicked bufio.ErrTooLong).
Proof.
  apply (main_panics_on_long_line Inputs.echo "myXargs" ["echo"] Inputs.longLine).
  apply too_long_found. vm_compute. reflexivity.
Defined.

(** ** myFind: the extensions *)
Section Extensions.

(** X7: whatever the command line, the extensions [flag.Parse] leaves in
    [exts] are a dot followed by letters and digits: [Set] lets nothing
    else in. *)
Theorem Parse_exts_dotted arguments o args :
  flag.Parse myFind.formal (myFind.mkOptions false false false []) arguments
    = flag.Flags o args ->
  Forall Spec.dotted (myFind.exts o).
Proof.
  unfold flag.Parse.
  generalize (S (length arguments)) as fuel.
  assert (Hinit : Forall Spec.dotted
            (myFind.exts (myFind.mkOptions false false false [])))
    by constructor.
  revert Hinit. generalize (myFind.mkOptions false false false []) as st.
  intros st Hst fuel. revert st arguments Hst.
  assert (Hone : forall st arguments st' args',
    Forall Spec.dotted (myFind.exts st) ->
    flag.parseOne myFind.formal st arguments = flag.Seen st' args' \/
    flag.parseOne myFind.formal st arguments = flag.Over st' args' ->
    Forall Spec.dotted (myFind.exts st')).
  { intros st arguments st' args' Hst H.
    unfold flag.parseOne, myFind.formal, myFind.boolVar, myFind.Set_ in H.
    destruct H as [H|H];
      repeat (case_match; simplify_eq; cbn in *; try assumption);
      try (apply Forall_app; split; [assumption|];
           constructor; [|constructor]; eexists; split; [reflexivity|];
           match goal with
           | Hv : negb (myFind.validExt _) = false |- _ =>
             now apply negb_false_iff in Hv
           end). }
  induction fuel as [|fuel IH]; intros st arguments Hst H.
  - cbn in H. injection H as <- _. exact Hst.
  - cbn [flag.parseLoop] in H.
    destruct (flag.parseOne myFind.formal st arguments)
      as [st1 args1|st1 args1|e] eqn:Hp.
    + apply (IH st1 args1); [|exact H]. eapply Hone; eauto.
    + injection H as <- _. eapply Hone; eauto.
    + destruct e; discriminate.
Qed.

End Extensions.

Lemma Parse_exts_dotted_txt :
  Forall Spec.dotted [".txt"; ".md"].
Proof.
  exact (Parse_exts_dotted ["-f"; "-ext"; "txt"; "-ext=md"; "d"]
           (myFind.mkOptions false true false [".txt"; ".md"]) ["d"] eq_refl).
Defined.

(** ** myFind: what a walk writes *)
Section FindOutput.

Variable cwd : filepath.Node.
Variable o : myFind.Options.

Lemma processExt_repeat path exts st :
  myFind.processExt path exts st
    = myFind.mkState
        (myFind.stdout st ++
           repeat (path +:+ newline)
                  (length (List.filter (fun ext => strings.HasSuffix path ext) exts)))
        (myFind.stderr st) (myFind.panicked st).
Proof.
  revert st. induction exts as [|ext exts IH]; intros st.
  - destruct st. cbn. now rewrite app_nil_r.
  - cbn [myFind.processExt List.filter]. rewrite IH.
    destruct (strings.HasSuffix path ext); [|reflexivity].
    cbn [myFind.fmt_Println myFind.stdout myFind.stderr myFind.panicked length repeat].
    now rewrite <- app_assoc.
Qed.

(** X8: [processExt] prints the path once for each extension of the list
    it ends with, so as many times as the list has such extensions, and
    writes nothing else. *)
Theorem processExt_once_per_match path exts st :
  myFind.processExt path exts st
    = myFind.mkState
        (myFind.stdout st ++
           repeat (path +:+ newline)
                  (length (List.filter (fun ext => strings.HasSuffix path ext) exts)))
        (myFind.stderr st) (myFind.panicked st).
Proof. apply processExt_repeat. Qed.

Lemma owner_read_bit_clear (mode : Z) :
  Z.land (Z.land mode os.ModePerm) 0x100 = 0%Z -> Z.testbit mode 8 = false.
Proof.
  intros H. apply (f_equal (fun z => Z.testbit z 8)) in H.
  rewrite !Z.land_spec in H. cbn in H.
  now rewrite !andb_true_r in H.
Qed.

(** A property of what is written that every call of [walkFn] keeps is
    kept by the walk. *)
Lemma walk_keeps (P : myFind.State -> Prop) root n st0 :
  P st0 ->
  (forall path info e st,
     In (path, info, e) (Spec.visits root n) -> P st ->
     P (myFind.walkFn cwd o path (Some info) e st)) ->
  P (filepath.walk (myFind.walkFn cwd o) root n st0).
Proof.
  intros H0 Hstep. rewrite walk_visits. revert st0 H0.
  induction (Spec.visits root n) as [|[[path info] e] vs IH]; intros st0 H0.
  - exact H0.
  - cbn [fold_left fst snd]. apply IH.
    + intros p i e' st Hin. apply Hstep. now right.
    + apply Hstep; [now left|exact H0].
Qed.

Lemma printEntity_stderr path info dm fm sm exts st :
  myFind.stderr (myFind.printEntity cwd path info dm fm sm exts st)
    = myFind.stderr st.
Proof.
  unfold myFind.printEntity.
  repeat match goal with |- context [if ?b then _ else _] => destruct b end;
    try reflexivity.
  now rewrite processExt_repeat.
Qed.

Lemma processExt_stdout path exts st line :
  In line (myFind.stdout (myFind.processExt path exts st)) ->
  In line (myFind.stdout st) \/
  (line = path +:+ newline /\
   exists ext, In ext exts /\ strings.HasSuffix path ext = true).
Proof.
  rewrite processExt_repeat. cbn [myFind.stdout]. intros H.
  apply in_app_or in H as [H|H]; [now left|right].
  destruct (List.filter (fun ext => strings.HasSuffix path ext) exts)
    as [|ext l] eqn:Hfl; [destruct H|].
  split; [now apply repeat_spec in H|].
  assert (Hmem : In ext (List.filter (fun ext => strings.HasSuffix path ext) exts))
    by (rewrite Hfl; now left).
  apply filter_In in Hmem as [? ?]. eauto.
Qed.

(** X9: the lines a walk writes to stderr are the lines "path: Permission
    denied" of entries it visits whose mode lacks the read bit of the
    owner; nothing else goes to stderr. *)
Theorem walk_diagnostics root n st0 line :
  In line (myFind.stderr (filepath.walk (myFind.walkFn cwd o) root n st0)) ->
  In line (myFind.stderr st0) \/
  exists path info e,
    In (path, info, e) (Spec.visits root n) /\
    Z.testbit (os.Mode info) 8 = false /\
    line = Spec.denied path.
Proof.
  revert line.
  apply (walk_keeps (fun st => forall line, In line (myFind.stderr st) ->
           In line (myFind.stderr st0) \/
           exists path info e,
             In (path, info, e) (Spec.visits root n) /\
             Z.testbit (os.Mode info) 8 = false /\
             line = Spec.denied path)).
  - intros line H. now left.
  - intros path info e st Hin IH line. unfold myFind.walkFn.
    destruct (Z.land (Z.land (os.Mode info) os.ModePerm) 256 =? 0)%Z eqn:Hb;
      cbn [negb].
    + cbn [myFind.stderr]. intros H. apply in_app_or in H as [H|[<-|[]]].
      * now apply IH.
      * right. exists path, info, e. split; [exact Hin|]. split; [|reflexivity].
        apply owner_read_bit_clear. now apply Z.eqb_eq.
    + rewrite printEntity_stderr. apply IH.
Qed.

(** X10: the lines a walk writes to stdout come from entries it visits
    whose mode has the read bit of the owner: the path of a directory when
    directories are asked for, the path of a regular file when files are
    asked for and, if extensions are given, the path ends with one of
    them, or a line "path -> target" for a symbolic link when links are
    asked for.  Nothing else is printed. *)
Theorem walk_prints root n st0 line :
  In line (myFind.stdout (filepath.walk (myFind.walkFn cwd o) root n st0)) ->
  In line (myFind.stdout st0) \/
  exists path info e,
    In (path, info, e) (Spec.visits root n) /\
    Z.testbit (os.Mode info) 8 = true /\
    ((line = path +:+ newline /\ os.IsDir info = true /\
      myFind.dirMode o = true) \/
     (line = path +:+ newline /\ os.IsRegular (os.Mode info) = true /\
      myFind.fMode o = true /\
      (myFind.exts o = [] \/
       exists ext, In ext (myFind.exts o) /\
                   strings.HasSuffix path ext = true)) \/
     (exists target, line = path +:+ " -> " +:+ target +:+ newline /\
      Z.land (os.Mode info) os.ModeSymlink <> 0%Z /\
      myFind.slMode o = true)).
Proof.
  revert line.
  apply (walk_keeps (fun st => forall line, In line (myFind.stdout st) ->
    In line (myFind.stdout st0) \/
    exists path info e,
      In (path, info, e) (Spec.visits root n) /\
      Z.testbit (os.Mode info) 8 = true /\
      ((line = path +:+ newline /\ os.IsDir info = true /\
        myFind.dirMode o = true) \/
       (line = path +:+ newline /\ os.IsRegular (os.Mode info) = true /\
        myFind.fMode o = true /\
        (myFind.exts o = [] \/
         exists ext, In ext (myFind.exts o) /\
                     strings.HasSuffix path ext = true)) \/
       (exists target, line = path +:+ " -> " +:+ target +:+ newline /\
        Z.land (os.Mode info) os.ModeSymlink <> 0%Z /\
        myFind.slMode o = true)))).
  - intros line H. now left.
  - intros path info e st Hin IH line. unfold myFind.walkFn.
    destruct (Z.land (Z.land (os.Mode info) os.ModePerm) 256 =? 0)%Z eqn:Hb;
      cbn [negb]; [exact (IH line)|].
    assert (Hbit : Z.testbit (os.Mode info) 8 = true).
    { destruct (Z.testbit (os.Mode info) 8) eqn:Ht; [reflexivity|].
      apply owner_read_bit in Ht. apply Z.eqb_neq in Hb. contradiction. }
    unfold myFind.printEntity.
    destruct (os.IsDir info) eqn:Hd, (myFind.dirMode o) eqn:Hdm; cbn [andb].
    1: { cbn [myFind.fmt_Println myFind.stdout]. intros H.
         apply in_app_or in H as [H|[<-|[]]]; [now apply IH|].
         right. exists path, info, e. repeat split; auto. }
    all: destruct (os.IsRegular (os.Mode info)) eqn:Hr, (myFind.fMode o) eqn:Hf;
      cbn [andb].
    all: try (destruct (0 <? length (myFind.exts o))%nat eqn:Hlen;
      [ intros H; apply processExt_stdout in H as [H|[-> Hext]];
        [now apply IH|];
        right; exists path, info, e; split; [exact Hin|]; split; [exact Hbit|];
        right; left; repeat split; auto
      | cbn [myFind.fmt_Println myFind.stdout]; intros H;
        apply in_app_or in H as [H|[<-|[]]]; [now apply IH|];
        right; exists path, info, e; split; [exact Hin|]; split; [exact Hbit|];
        right; left; repeat split; auto; left;
        destruct (myFind.exts o); [reflexivity|discriminate] ]).
    all: destruct (Z.land (os.Mode info) os.ModeSymlink =? 0)%Z eqn:Hs,
                  (myFind.slMode o) eqn:Hsm; cbn [negb andb]; try exact (IH line).
    all: cbn [myFind.stdout]; intros H;
      apply in_app_or in H as [H|[<-|[]]]; [now apply IH|];
      right; exists path, info, e; split; [exact Hin|]; split; [exact Hbit|];
      right; right; eexists; split; [reflexivity|]; split; [|reflexivity];
      now apply Z.eqb_neq.
Qed.

End FindOutput.

Lemma walk_diagnostics_guarded :
  In (Spec.denied "d/secret")
     (myFind.stderr (filepath.walk (myFind.walkFn Inputs.guarded Inputs.everything)
                                   "d" Inputs.guardedDir (myFind.mkState [] [] None))) /\
  exists path info e,
    In (path, info, e) (Spec.visits "d" Inputs.guardedDir) /\
    Z.testbit (os.Mode info) 8 = false /\
    Spec.denied "d/secret" = Spec.denied path.
Proof.
  assert (H : In (Spec.denied "d/secret")
     (myFind.stderr (filepath.walk (myFind.walkFn Inputs.guarded Inputs.everything)
                                   "d" Inputs.guardedDir (myFind.mkState [] [] None))))
    by (vm_compute; left; reflexivity).
  split; [exact H|].
  destruct (walk_diagnostics Inputs.guarded Inputs.everything "d" Inputs.guardedDir
              (myFind.mkState [] [] None) _ H) as [[]|Hex].
  exact Hex.
Defined.

Lemma walk_prints_guarded :
  In ("d/x.txt" +:+ newline)
     (myFind.stdout (filepath.walk (myFind.walkFn Inputs.guarded Inputs.everything)
                                   "d" Inputs.guardedDir (myFind.mkState [] [] None))) /\
  exists path info e,
    In (path, info, e) (Spec.visits "d" Inputs.guardedDir) /\
    Z.testbit (os.Mode info) 8 = true.
Proof.
  assert (H : In ("d/x.txt" +:+ newline)
     (myFind.stdout (filepath.walk (myFind.walkFn Inputs.guarded Inputs.everything)
                                   "d" Inputs.guardedDir (myFind.mkState [] [] None))))
    by (vm_compute; right; left; reflexivity).
  split; [exact H|].
  destruct (walk_prints Inputs.guarded Inputs.everything "d" Inputs.guardedDir
              (myFind.mkState [] [] None) _ H) as [[]|(path & info & e & Hin & Hbit & _)].
  exists path, info, e. split; assumption.
Defined.

(** ** Suffixes *)
Section Suffixes.

Lemma append_assoc (a b c : string) : (a +:+ b) +:+ c = a +:+ (b +:+ c).
Proof.
  induction a as [|x a IH]; [reflexivity|exact (f_equal (String x) IH)].
Qed.

Lemma substring_split n s :
  (n <= String.length s)%nat ->
  substring 0 n s +:+ substring n (String.length s - n) s = s.
Proof.
  revert n. induction s as [|c t IH]; intros n Hn.
  - simpl in Hn. now replace n with 0%nat by lia.
  - destruct n as [|k].
    + rewrite Nat.sub_0_r. apply (substring_whole (String c t)).
    + change (String c (substring 0 k t +:+ substring k (String.length t - k) t)
              = String c t).
      rewrite IH; [reflexivity|]. simpl in Hn. lia.
Qed.

(** [HasSuffix] says what its name says. *)
Lemma HasSuffix_true s suffix :
  strings.HasSuffix s suffix = true <-> exists b, s = b +:+ suffix.
Proof.
  split.
  - unfold strings.HasSuffix. intros H. apply andb_prop in H as [Hlen Heq].
    apply Nat.leb_le in Hlen. apply String.eqb_eq in Heq.
    exists (substring 0 (String.length s - String.length suffix) s).
    assert (Hle : (String.length s - String.length suffix <= String.length s)%nat)
      by lia.
    pose proof (substring_split _ s Hle) as Hsp.
    replace (String.length s - (String.length s - String.length suffix))%nat
      with (String.length suffix) in Hsp by lia.
    rewrite Heq in Hsp. now symmetry.
  - intros [b ->]. apply HasSuffix_append.
Qed.

End Suffixes.

(** ** myRotate: the tasks *)
Section Rotate.

Lemma getArchiveName_rejects info w :
  (forall B, os.Name info <> B +:+ ".log") ->
  myRotate.getArchiveName info w
    = ((EmptyString, false),
       myRotate.fmt_Fprintln "Wrong file format, only .log accepted" w).
Proof.
  intros Hno. unfold myRotate.getArchiveName, strings.CutSuffix.
  destruct (strings.HasSuffix (os.Name info) ".log") eqn:Hs; [|reflexivity].
  apply HasSuffix_true in Hs as [B HB]. now destruct (Hno B).
Qed.

(** X11: [getArchiveName] gives a name exactly for the files whose name
    ends in .log; for any other file it gives no name and writes "Wrong
    file format, only .log accepted" to stderr. *)
Theorem getArchiveName_only_log info w :
  (snd (fst (myRotate.getArchiveName info w)) = true
   <-> exists B, os.Name info = B +:+ ".log") /\
  ((forall B, os.Name info <> B +:+ ".log") ->
   myRotate.getArchiveName info w
     = ((EmptyString, false),
        myRotate.fmt_Fprintln "Wrong file format, only .log accepted" w)).
Proof.
  unfold myRotate.getArchiveName, strings.CutSuffix.
  destruct (strings.HasSuffix (os.Name info) ".log") eqn:Hs; cbn [negb fst snd].
  - apply HasSuffix_true in Hs. split; [tauto|].
    intros Hno. destruct Hs as [B HB]. now destruct (Hno B).
  - split; [|reflexivity]. split; [discriminate|].
    intros HB. apply HasSuffix_true in HB. congruence.
Qed.

Lemma getArchiveName_name info w name w' :
  myRotate.getArchiveName info w = ((name, true), w') ->
  w' = w /\ strings.HasSuffix name ".tar.gz" = true.
Proof.
  unfold myRotate.getArchiveName.
  destruct (strings.CutSuffix (os.Name info) ".log") as [b found].
  destruct found; cbn [negb]; intros H; [|discriminate].
  injection H as <- <-. split; [reflexivity|].
  apply HasSuffix_true. exists (b +:+ "_" +:+ fmt.d (os.ModTimeUnix info)).
  now rewrite !append_assoc.
Qed.

Lemma HasSuffix_differs q s suffix :
  strings.HasSuffix q suffix = false ->
  strings.HasSuffix s suffix = true -> q <> s.
Proof. intros Hq Hs ->. congruence. Qed.

Lemma Create_other name w w1 q :
  myRotate.Create name w = inl w1 -> q <> name ->
  myRotate.fs w1 !! q = myRotate.fs w !! q.
Proof.
  unfold myRotate.Create. intros H Hne.
  destruct (myRotate.createErr w name); [discriminate|].
  destruct (myRotate.fs w !! name) as [f|].
  - destruct (os.IsDir (os.info f)); [discriminate|].
    injection H as <-. cbn. now apply lookup_insert_ne.
  - injection H as <-. cbn. now apply lookup_insert_ne.
Qed.


Lemma fillArchive_fs path info w :
  myRotate.fs (snd (myRotate.fillArchive path info w)) = myRotate.fs w.
Proof.
  unfold myRotate.fillArchive.
  destruct (os.Open (myRotate.fs w) path); [|reflexivity].
  repeat match goal with
         | |- context [myRotate.failsAt ?w ?p ?s] =>
           destruct (myRotate.failsAt w p s)
         end; reflexivity.
Qed.

Lemma removeArchive_other name w q :
  q <> name ->
  myRotate.fs (myRotate.removeArchive name w) !! q = myRotate.fs w !! q.
Proof.
  intros Hne. unfold myRotate.removeArchive, myRotate.rm.
  destruct (myRotate.isOption name); [reflexivity|].
  destruct (myRotate.fs w !! name) as [f|]; [|reflexivity].
  destruct (os.IsDir (os.info f)); [reflexivity|].
  cbn. now apply lookup_delete_ne.
Qed.

Lemma moveArchive_other name dest w q :
  q <> name -> q <> dest -> q <> dest +:+ "/" +:+ name ->
  myRotate.fs (myRotate.moveArchive name dest w) !! q = myRotate.fs w !! q.
Proof.
  intros Hn Hd Ht. unfold myRotate.moveArchive, myRotate.mv.
  destruct (myRotate.isOption name || myRotate.isOption dest); [reflexivity|].
  destruct (myRotate.fs w !! name) as [f|]; [|reflexivity].
  cbn [myRotate.fmt_Print myRotate.setFs myRotate.fs].
  rewrite lookup_insert_ne.
  - now apply lookup_delete_ne.
  - destruct (os.Stat (myRotate.fs w) dest) as [i|]; [destruct (os.IsDir i)|];
      congruence.
Qed.

(** X12: for a path that is missing, or whose file is not named like a
    log, the task creates, changes and removes nothing, prints nothing and
    writes one line to stderr. *)
Theorem archive_skips dest path w :
  (match os.Stat (myRotate.fs w) path with
   | inl info => forall B, os.Name info <> B +:+ ".log"
   | inr _ => True
   end) ->
  myRotate.fs (myRotate.archive dest path w) = myRotate.fs w /\
  myRotate.stdout (myRotate.archive dest path w) = myRotate.stdout w /\
  exists line,
    myRotate.stderr (myRotate.archive dest path w) = myRotate.stderr w ++ [line].
Proof.
  unfold myRotate.archive.
  destruct (os.Stat (myRotate.fs w) path) as [info|e]; intros H.
  - rewrite (getArchiveName_rejects info w H). cbn. eauto.
  - cbn. eauto.
Qed.

(** The task of a path leaves every file alone whose name does not end in
    .tar.gz and which is not the destination. *)
Lemma archive_keeps_other_files dest path w q :
  strings.HasSuffix q ".tar.gz" = false ->
  q <> dest ->
  myRotate.fs (myRotate.archive dest path w) !! q = myRotate.fs w !! q.
Proof.
  intros Hq Hd. unfold myRotate.archive.
  destruct (os.Stat (myRotate.fs w) path) as [info|e]; [|reflexivity].
  destruct (myRotate.getArchiveName info w) as [[name ok] w0] eqn:Hname.
  destruct ok; [|unfold myRotate.getArchiveName in Hname;
    destruct (strings.CutSuffix _ _) as [b found]; destruct found;
    cbn [negb] in Hname; [discriminate|]; now injection Hname as _ <-].
  apply getArchiveName_name in Hname as [-> Hsuf].
  assert (Hne : q <> name) by (eapply HasSuffix_differs; eauto).
  destruct (myRotate.Create name w) as [w1|e] eqn:Hc; [|reflexivity].
  cbv zeta.
  pose proof (fillArchive_fs path info
                (myRotate.fmt_Println ("CREATED: " +:+ name) w1)) as Hfs.
  destruct (myRotate.fillArchive path info _) as [[err|] w2]; cbn [snd] in Hfs.
  - rewrite removeArchive_other by exact Hne.
    cbn [myRotate.fmt_Fprintln myRotate.fs]. rewrite Hfs.
    cbn [myRotate.fmt_Println myRotate.fmt_Print myRotate.fs].
    now apply (Create_other name w w1).
  - assert (Hw2 : myRotate.fs w2 !! q = myRotate.fs w !! q).
    { rewrite Hfs. cbn [myRotate.fmt_Println myRotate.fmt_Print myRotate.fs].
      now apply (Create_other name w w1). }
    destruct (negb (String.eqb dest EmptyString)); [|exact Hw2].
    rewrite moveArchive_other; [exact Hw2|exact Hne|exact Hd|].
    eapply HasSuffix_differs; [exact Hq|].
    apply HasSuffix_true in Hsuf as [b ->]. apply HasSuffix_true.
    exists (dest +:+ "/" +:+ b). now rewrite !append_assoc.
Qed.


End Rotate.

Lemma getArchiveName_only_log_notes :
  (forall B, "notes.txt" <> B +:+ ".log") /\
  myRotate.getArchiveName (os.mkFileInfo "notes.txt" Inputs.fileMode 7)
                          (Inputs.logs Inputs.noFault)
    = ((EmptyString, false),
       myRotate.fmt_Fprintln "Wrong file format, only .log accepted"
                             (Inputs.logs Inputs.noFault)).
Proof.
  assert (H : forall B, "notes.txt" <> B +:+ ".log").
  { intros B HB.
    assert (Hs : strings.HasSuffix "notes.txt" ".log" = true)
      by (apply HasSuffix_true; eauto).
    discriminate Hs. }
  split; [exact H|].
  exact (proj2 (getArchiveName_only_log
                  (os.mkFileInfo "notes.txt" Inputs.fileMode 7)
                  (Inputs.logs Inputs.noFault)) H).
Defined.

Lemma archive_skips_missing :
  myRotate.fs (myRotate.archive "old" "gone.log" (Inputs.logs Inputs.noFault))
    = myRotate.fs (Inputs.logs Inputs.noFault).
Proof.
  exact (proj1 (archive_skips "old" "gone.log" (Inputs.logs Inputs.noFault) I)).
Defined.


(** ** myRotate: the whole run *)
Section RotateRun.

Lemma startup_fs Args w r w' :
  myRotate.startup Args w = (r, w') -> myRotate.fs w' = myRotate.fs w.
Proof.
  unfold myRotate.startup. intros H.
  repeat (case_match; simplify_eq); reflexivity.
Qed.

(** X14: a run of the archiver leaves every file alone whose name does
    not end in .tar.gz and which is not the destination: the logs it
    archives are neither removed nor emptied. *)
Theorem main_keeps_other_files Args w q :
  strings.HasSuffix q ".tar.gz" = false ->
  (forall dest files w',
     myRotate.startup Args w = (myRotate.Launch dest files, w') -> q <> dest) ->
  myRotate.fs (snd (myRotate.main Args w)) !! q = myRotate.fs w !! q.
Proof.
  intros Hq Hd. unfold myRotate.main.
  destruct (myRotate.startup Args w) as [[dest files|e] w'] eqn:Hs; cbn [snd].
  - specialize (Hd dest files w' eq_refl).
    rewrite <- (startup_fs _ _ _ _ Hs). clear Hs.
    revert w'. induction files as [|path files IH]; intros w'; [reflexivity|].
    cbn [foldl]. rewrite IH. now apply archive_keeps_other_files.
  - now rewrite (startup_fs _ _ _ _ Hs).
Qed.

(** X15: with a destination directory and no file after it, [main]
    panics: with "No files provided for archiving" when the command line has
    three arguments, as in "myRotate -a old", and with a slice out of range
    when it has two, as in "myRotate -a=old". *)
Theorem main_panics_without_files prog arguments dest rest w destInfo :
  flag.Parse myRotate.formal EmptyString arguments = flag.Flags dest rest ->
  os.Stat (myRotate.fs w) dest = inl destInfo ->
  os.IsDir destInfo = true ->
  (length arguments <= 2)%nat ->
  myRotate.main (prog :: arguments) w
    = (Panicked (if (length arguments <? 2)%nat
                 then "slice bounds out of range"
                 else "No files provided for archiving"), w).
Proof.
  intros Hp Hs Hd Hlen. unfold myRotate.main, myRotate.startup.
  rewrite slice_from_1, Hp, Hs, Hd. cbn [negb].
  assert (Hne : String.eqb dest EmptyString = false).
  { apply String.eqb_neq. intros ->. unfold os.Stat in Hs. discriminate. }
  rewrite Hne. unfold slice_from.
  destruct arguments as [|a1 [|a2 [|a3 l]]]; cbn in *; try reflexivity; lia.
Qed.

End RotateRun.

Lemma main_keeps_a_log :
  myRotate.fs (snd (myRotate.main ["myRotate"; "-a"; "old"; "a.log"]
                                  (Inputs.logs Inputs.noFault))) !! "a.log"
    = myRotate.fs (Inputs.logs Inputs.noFault) !! "a.log".
Proof.
  apply main_keeps_other_files; [reflexivity|].
  intros dest files w' H. vm_compute in H. injection H as <- _ _. discriminate.
Defined.

Lemma main_panics_without_files_old :
  myRotate.main ["myRotate"; "-a=old"] (Inputs.logs Inputs.noFault)
    = (Panicked "slice bounds out of range", Inputs.logs Inputs.noFault) /\
  myRotate.main ["myRotate"; "-a"; "old"] (Inputs.logs Inputs.noFault)
    = (Panicked "No files provided for archiving", Inputs.logs Inputs.noFault).
Proof.
  split.
  - apply (main_panics_without_files "myRotate" ["-a=old"] "old" []
             (Inputs.logs Inputs.noFault) (os.mkFileInfo "old" Inputs.dirMode 3));
      [reflexivity|reflexivity|reflexivity|simpl; lia].
  - apply (main_panics_without_files "myRotate" ["-a"; "old"] "old" []
             (Inputs.logs Inputs.noFault) (os.mkFileInfo "old" Inputs.dirMode 3));
      [reflexivity|reflexivity|reflexivity|simpl; lia].
Defined.
